(** * smelly_python.code_smell: the object model of a pylint report

    A shallow embedding of [src/smelly_python/code_smell.py]: the classes
    [Location], [Priority], [CodeSmell] and [Report], with the Python
    builtins they call ([dict] subscription, [str.lower], [str.replace],
    [list.index], [sorted], [itertools.groupby], [json.dumps] with a
    [default] hook) modelled in [Module Py]. *)

From Stdlib Require Import ZArith Ascii String.
From stdpp Require Import gmap strings list fin_maps sorting.

Set Warnings "-register-all".
Local Open Scope string_scope.
Local Open Scope list_scope.
Local Open Scope Z_scope.

(** ** Python values, exceptions and builtins *)

Module Py.

(** What [json.load] produces, and so what the fields of a raw record hold:
    [None], booleans, integers, strings, lists and dicts with string keys.
    Non-integer numbers are left out of the model. *)
Inductive pyval :=
| VNone
| VBool (b : bool)
| VInt (z : Z)
| VStr (s : string)
| VList (l : list pyval)
| VDict (d : gmap string pyval).

Global Instance pyval_eq_dec : EqDecision pyval.
Proof.
  refine (fix go (x y : pyval) {struct x} : Decision (x = y) :=
    let _ : EqDecision pyval := go in
    match x, y with
    | VNone, VNone => left _
    | VBool a, VBool b => cast_if (decide (a = b))
    | VInt a, VInt b => cast_if (decide (a = b))
    | VStr a, VStr b => cast_if (decide (a = b))
    | VList a, VList b => cast_if (decide (a = b))
    | VDict a, VDict b => cast_if (decide (a = b))
    | _, _ => right _
    end); abstract congruence.
Defined.

(** Python's [==] on these values: [True == 1] and [False == 0], lists
    compare element by element, dicts entry by entry whatever the order of
    insertion.  [py_norm] sends a value to the representative of its class. *)
Fixpoint py_norm (v : pyval) : pyval :=
  match v with
  | VBool b => VInt (Z.b2z b)
  | VList l => VList (py_norm <$> l)
  | VDict d => VDict (py_norm <$> d)
  | _ => v
  end.

Definition py_eq (a b : pyval) : bool := bool_decide (py_norm a = py_norm b).

(** [hash(v)] raises [TypeError] on lists and dicts. *)
Definition hashable (v : pyval) : bool :=
  match v with
  | VList _ | VDict _ => false
  | _ => true
  end.

(** The exceptions the module can raise.  [KeyError] carries the key that
    was looked up. *)
Inductive exn :=
| KeyError (key : pyval)
| TypeError
| AttributeError
| ValueError
| RecursionError.

Global Instance exn_eq_dec : EqDecision exn.
Proof. solve_decision. Defined.

(** A computation that returns or raises. *)
Inductive result (A : Type) :=
| Ok (a : A)
| Raise (e : exn).
Global Arguments Ok {A} a.
Global Arguments Raise {A} e.

Global Instance result_eq_dec {A} `{EqDecision A} : EqDecision (result A).
Proof. solve_decision. Defined.

Global Instance result_ret : MRet result := λ A a, Ok a.
Global Instance result_bind : MBind result := λ A B f m,
  match m with
  | Ok a => f a
  | Raise e => Raise e
  end.
Global Instance result_fmap : FMap result := λ A B f m,
  match m with
  | Ok a => Ok (f a)
  | Raise e => Raise e
  end.

Definition is_Ok {A} (m : result A) : Prop := ∃ a, m = Ok a.

(** [d[k]] on a dict with string keys, for a string literal [k]. *)
Definition getitem (d : gmap string pyval) (k : string) : result pyval :=
  match d !! k with
  | Some v => Ok v
  | None => Raise (KeyError (VStr k))
  end.

(** [d[k]] on a dict with string keys, for any value [k]: the key is hashed
    first, and only a string can equal a string key. *)
Definition subscript {A} (d : gmap string A) (k : pyval) : result A :=
  if hashable k then
    match k with
    | VStr s =>
        match d !! s with
        | Some a => Ok a
        | None => Raise (KeyError k)
        end
    | _ => Raise (KeyError k)
    end
  else Raise TypeError.

(** [str.lower] on ASCII letters, which is all an identifier has. *)
Definition ascii_lower (c : ascii) : ascii :=
  let n := nat_of_ascii c in
  if ((65 <=? n)%nat && (n <=? 90)%nat)%bool then ascii_of_nat (n + 32) else c.

Fixpoint lower (s : string) : string :=
  match s with
  | EmptyString => EmptyString
  | String c s' => String (ascii_lower c) (lower s')
  end.

(** [s.replace(old, new)] for a non-empty [old]: scan from the left, and at
    each occurrence of [old] emit [new] and jump over the occurrence
    ([skip] counts the characters of it still to pass). *)
Fixpoint replace_from (old new : string) (skip : nat) (s : string) : string :=
  match s with
  | EmptyString => EmptyString
  | String c s' =>
      match skip with
      | S k => replace_from old new k s'
      | O =>
          if String.prefix old s
          then new +:+ replace_from old new (String.length old - 1) s'
          else String c (replace_from old new 0 s')
      end
  end.

Definition replace (s old new : string) : string := replace_from old new 0 s.

(** [x in l] and [l.index(x)], with [eq item x] standing for [item == x]. *)
Definition contains {A B} (eq : A → B → bool) (x : B) (l : list A) : bool :=
  existsb (λ item, eq item x) l.

Fixpoint index_from {A B} (eq : A → B → bool) (x : B) (l : list A) (i : Z)
    : result Z :=
  match l with
  | [] => Raise ValueError
  | item :: l' => if eq item x then Ok i else index_from eq x l' (i + 1)
  end.

Definition index {A B} (eq : A → B → bool) (l : list A) (x : B) : result Z :=
  index_from eq x l 0.

(** [sorted(l, key=key, reverse=reverse)].  The keys are computed once, up
    front; the list is then sorted on the keys alone, with [<] as the only
    comparison and without ever swapping two items of equal key.  With
    [reverse] the list is reversed before and after, which keeps items of
    equal key in their input order.  Any stable sort returns the same list;
    the one written here inserts from the right. *)
Section sorted.
Context {A : Type}.

Fixpoint insert (kx : Z * A) (l : list (Z * A)) : list (Z * A) :=
  match l with
  | [] => [kx]
  | ky :: l' => if ky.1 <? kx.1 then ky :: insert kx l' else kx :: l
  end.

Definition sort_keyed (l : list (Z * A)) : list (Z * A) := foldr insert [] l.

Definition sorted (l : list A) (key : A → result Z) (rev : bool)
    : result (list A) :=
  keys ← mapM key l;
  let keyed := zip keys l in
  Ok (snd <$> (if rev then reverse (sort_keyed (reverse keyed))
               else sort_keyed keyed)).
End sorted.

(** [itertools.groupby(l, key)], run to the end with every group collected:
    [tgt] is the key the current group was opened with, [grp] the members
    met so far; an item whose key differs from [tgt] closes the group and
    opens the next. *)
Section groupby.
Context {A : Type}.
Variable key : A → pyval.

Fixpoint grouper (tgt : pyval) (grp : list A) (l : list A)
    : list (pyval * list A) :=
  match l with
  | [] => [(tgt, grp)]
  | x :: l' =>
      if py_eq (key x) tgt then grouper tgt (grp ++ [x]) l'
      else (tgt, grp) :: grouper (key x) [x] l'
  end.

Definition groupby (l : list A) : list (pyval * list A) :=
  match l with
  | [] => []
  | x :: l' => grouper (key x) [x] l'
  end.
End groupby.

(** [json.loads(json.dumps(o, default=default))].  The encoder writes a
    value it knows ([native]) as it is; anything else goes through
    [default], here a hook that answers with a dict, whose values are
    encoded in turn.  [fuel] is the depth of nesting the interpreter allows.
    The text is represented by the document it denotes, which is what
    [json.loads] gives back. *)
Section dumps.
Context {Obj : Type}.
Variable native : Obj → option pyval.
Variable default : Obj → result (list (string * Obj)).

Fixpoint dumps (fuel : nat) (o : Obj) : result pyval :=
  match native o with
  | Some v => Ok v
  | None =>
      match fuel with
      | O => Raise RecursionError
      | S n =>
          d ← default o;
          kvs ← mapM (λ kx : string * Obj, v ← dumps n kx.2; Ok (kx.1, v)) d;
          Ok (VDict (list_to_map kvs))
      end
  end.
End dumps.

(** [{**d, k: v}]: a key already there keeps its place and takes the new
    value, a new key goes to the end. *)
Fixpoint dict_set {A} (k : string) (v : A) (d : list (string * A))
    : list (string * A) :=
  match d with
  | [] => [(k, v)]
  | (k', v') :: d' =>
      if decide (k' = k) then (k, v) :: d' else (k', v') :: dict_set k v d'
  end.

Definition recursion_limit : nat := 1000.

End Py.
Import Py.

(** ** Location *)

Record Location := {
  module : pyval;
  python_object : pyval;
  line : pyval;
  column : pyval;
  end_line : pyval;
  path : pyval
}.

Definition Location_init (data : gmap string pyval) : result Location :=
  module ← getitem data "module";
  python_object ← getitem data "obj";
  line ← getitem data "line";
  column ← getitem data "column";
  end_line ← getitem data "endLine";
  path ← getitem data "path";
  Ok {| module := module; python_object := python_object; line := line;
        column := column; end_line := end_line; path := path |}.

(** ** Priority *)

Inductive Priority := ERROR | WARNING | REFACTOR | CONVENTION.

Global Instance Priority_eq_dec : EqDecision Priority.
Proof. solve_decision. Defined.

Definition Priority_name (prio : Priority) : string :=
  match prio with
  | ERROR => "ERROR"
  | WARNING => "WARNING"
  | REFACTOR => "REFACTOR"
  | CONVENTION => "CONVENTION"
  end.

Definition Priority_value (prio : Priority) : string :=
  match prio with
  | ERROR => ":red_circle:"
  | WARNING => ":orange_circle:"
  | REFACTOR => ":yellow_circle:"
  | CONVENTION => ":blue_circle:"
  end.

(** Iterating over the enum gives the members in definition order. *)
Definition Priority_members : list Priority :=
  [ERROR; WARNING; REFACTOR; CONVENTION].

Definition get_priority (name : pyval) : result Priority :=
  subscript
    (foldl (λ d prio, <[lower (Priority_name prio) := prio]> d) ∅
           Priority_members)
    name.

(** ** CodeSmell *)

(** What the attribute [type] holds.  The constructor stores a member of
    [Priority]; [severity] also answers for anything else the attribute may
    have been given. *)
Inductive type_attr :=
| Member (prio : Priority)
| NonMember (v : pyval).

Record CodeSmell := {
  type : type_attr;
  location : Location;
  symbol : pyval;
  message : pyval;
  message_id : pyval
}.

Definition CodeSmell_init (data : gmap string pyval) : result CodeSmell :=
  name ← getitem data "type";
  prio ← get_priority name;
  location ← Location_init data;
  symbol ← getitem data "symbol";
  message ← getitem data "message";
  message_id ← getitem data "message-id";
  Ok {| type := Member prio; location := location; symbol := symbol;
        message := message; message_id := message_id |}.

(** [item == x] for a member [item] of the enum: members are equal to
    themselves only. *)
Definition member_eq (item : Priority) (x : type_attr) : bool :=
  match x with
  | Member prio => bool_decide (item = prio)
  | NonMember _ => false
  end.

Definition severity (self : CodeSmell) : result Z :=
  let types := [CONVENTION; REFACTOR; WARNING; ERROR] in
  if contains member_eq (type self) types
  then index member_eq types (type self)
  else Ok (-1).

(** [self.symbol.replace('-', ' ')]; only a string has [replace]. *)
Definition get_readable_symbol (self : CodeSmell) : result pyval :=
  match symbol self with
  | VStr s => Ok (VStr (replace s "-" " "))
  | _ => Raise AttributeError
  end.

(** [self.type.name.lower()]; only an enum member has [name]. *)
Definition type_name_lower (self : CodeSmell) : result string :=
  match type self with
  | Member prio => Ok (lower (Priority_name prio))
  | NonMember _ => Raise AttributeError
  end.

(** The objects the JSON encoder can be handed by [jsonify]: values it
    writes itself, and instances of the three classes. *)
Inductive pyobj :=
| OVal (v : pyval)
| OPriority (prio : Priority)
| OLocation (l : Location)
| OCodeSmell (c : CodeSmell).

Definition native (o : pyobj) : option pyval :=
  match o with
  | OVal v => Some v
  | _ => None
  end.

Definition attr_obj (t : type_attr) : pyobj :=
  match t with
  | Member prio => OPriority prio
  | NonMember v => OVal v
  end.

Section jsonify.
(** The attribute dict of an enum member belongs to the [enum] library
    and is left open. *)
Variable Enum_dict : Priority → result (list (string * pyobj)).

(** [o.__dict__]: the attributes in the order [__init__] assigns them. *)
Definition dict_of (o : pyobj) : result (list (string * pyobj)) :=
  match o with
  | OCodeSmell c =>
      Ok [("type", attr_obj (type c));
          ("location", OLocation (location c));
          ("symbol", OVal (symbol c));
          ("message", OVal (message c));
          ("message_id", OVal (message_id c))]
  | OLocation l =>
      Ok [("module", OVal (module l));
          ("python_object", OVal (python_object l));
          ("line", OVal (line l));
          ("column", OVal (column l));
          ("end_line", OVal (end_line l));
          ("path", OVal (path l))]
  | OPriority prio => Enum_dict prio
  | OVal _ => Raise AttributeError
  end.

(** The hook handed to the encoder.  It closes over [self]: whatever
    object [o] it is called on, the two entries it adds are those of
    [self]. *)
Definition jsonify_default (self : CodeSmell) (o : pyobj)
    : result (list (string * pyobj)) :=
  d ← dict_of o;
  sev ← severity self;
  name ← type_name_lower self;
  Ok (dict_set "type" (OVal (VStr name))
        (dict_set "severity" (OVal (VInt sev)) d)).

(** [jsonify] returns a JSON text; the model gives the document that text
    denotes, an object being a dict of its members. *)
Definition jsonify (self : CodeSmell) : result pyval :=
  dumps native (jsonify_default self) recursion_limit (OCodeSmell self).
End jsonify.

(** ** Report *)

Record Report (G : Type) := {
  code_smells : list CodeSmell;
  grade : G
}.
Arguments code_smells {G} _.
Arguments grade {G} _.

(** The loop of [convert_dict]: [ret] grows by one smell per record, and
    the first record that fails to convert ends the loop with its error. *)
Fixpoint convert_loop (ret : list CodeSmell)
    (json_content : list (gmap string pyval)) : result (list CodeSmell) :=
  match json_content with
  | [] => Ok ret
  | smell :: rest =>
      c ← CodeSmell_init smell;
      convert_loop (ret ++ [c]) rest
  end.

Definition convert_dict (json_content : list (gmap string pyval))
    : result (list CodeSmell) :=
  ret ← convert_loop [] json_content;
  sorted ret severity true.

Definition Report_init {G} (json_content : list (gmap string pyval))
    (grade : G) : result (Report G) :=
  code_smells ← convert_dict json_content;
  Ok {| code_smells := code_smells; grade := grade |}.

Definition key_func (k : CodeSmell) : pyval := path (location k).

Definition group_by_file {G} (self : Report G) : list (list CodeSmell) :=
  snd <$> groupby key_func (code_smells self).

(** ** Sample records, smells and reports *)

Definition raw_record (ty symbol msg_id file : string) (ln : Z)
    : gmap string pyval :=
  <["type" := VStr ty]> (<["symbol" := VStr symbol]>
  (<["message" := VStr "Unused variable"]> (<["message-id" := VStr msg_id]>
  (<["module" := VStr "app"]> (<["obj" := VStr "main"]>
  (<["line" := VInt ln]> (<["column" := VInt 4]>
  (<["endLine" := VInt ln]> (<["path" := VStr file]> ∅))))))))).

Definition sample_record : gmap string pyval :=
  raw_record "warning" "unused-variable" "W0612" "app.py" 7.

Definition sample_smell : CodeSmell :=
  {| type := Member WARNING;
     location := {| module := VStr "app"; python_object := VStr "main";
                    line := VInt 7; column := VInt 4; end_line := VInt 7;
                    path := VStr "app.py" |};
     symbol := VStr "unused-variable";
     message := VStr "Unused variable";
     message_id := VStr "W0612" |}.

(** The keys [CodeSmell.__init__] and [Location.__init__] read. *)
Definition required_keys : list string :=
  ["type"; "symbol"; "message"; "message-id";
   "module"; "obj"; "line"; "column"; "endLine"; "path"].

Definition priority_names : list string :=
  ["error"; "warning"; "refactor"; "convention"].

(** The ordering of the four classes, lowest first. *)
Definition severity_order : list Priority :=
  [CONVENTION; REFACTOR; WARNING; ERROR].

Definition Priority_lt (p q : Priority) : Prop :=
  ∃ i j : nat, (i < j)%nat ∧
    severity_order !! i = Some p ∧ severity_order !! j = Some q.

(** A record whose [type] is a list. *)
Definition unhashable_type_record : gmap string pyval :=
  <["type" := VList [VStr "error"]]> sample_record.

(** What a run is: a key and a non-empty group whose members all have a
    key equal to it. *)
Definition is_run {A} (key : A → pyval) (kg : pyval * list A) : Prop :=
  kg.2 ≠ [] ∧ Forall (λ x, py_eq (key x) kg.1 = true) kg.2.

(** Two runs that follow each other were opened with different keys. *)
Definition key_change {A} (kg1 kg2 : pyval * list A) : Prop :=
  py_eq kg2.1 kg1.1 = false.

Definition smell_in (file : string) (symbol : string) : CodeSmell :=
  {| type := Member WARNING;
     location := {| module := VStr "app"; python_object := VStr "main";
                    line := VInt 7; column := VInt 4; end_line := VInt 7;
                    path := VStr file |};
     symbol := VStr symbol;
     message := VStr "Unused variable";
     message_id := VStr "W0612" |}.

Definition report_AAB : Report Z :=
  {| code_smells := [smell_in "a.py" "x"; smell_in "a.py" "y";
                     smell_in "b.py" "z"];
     grade := 8 |}.

Definition report_ABA : Report Z :=
  {| code_smells := [smell_in "a.py" "x"; smell_in "b.py" "y";
                     smell_in "a.py" "z"];
     grade := 8 |}.

(** In the list [sorted] works on, each item stands next to its key. *)
Definition keyed_by {A} (key : A → result Z) (kx : Z * A) : Prop :=
  key kx.2 = Ok kx.1.

(** A report of one record that has no [path]. *)
Definition records_missing_path : list (gmap string pyval) :=
  [sample_record; delete "path" sample_record].

(** Four records, two of them conventions, given out of order. *)
Definition sample_records : list (gmap string pyval) :=
  [raw_record "convention" "invalid-name" "C0103" "a.py" 1;
   raw_record "error" "undefined-variable" "E0602" "b.py" 2;
   raw_record "convention" "missing-docstring" "C0111" "b.py" 3;
   raw_record "warning" "unused-variable" "W0612" "a.py" 4].

(** The attributes of a [Location]. *)
Definition location_fields : gset string :=
  list_to_set
    ["module"; "python_object"; "line"; "column"; "end_line"; "path"].

(** The keys [Location.__init__] reads, in the order it reads them. *)
Definition location_keys : list string :=
  ["module"; "obj"; "line"; "column"; "endLine"; "path"].

(** The keys [CodeSmell.__init__] reads once [type] has been resolved, in
    the order it reads them. *)
Definition keys_after_type : list string :=
  location_keys ++ ["symbol"; "message"; "message-id"].

(** ** Textual forms *)

Section text.
(** [format(v, '')] of a JSON value, which is [str(v)]; it belongs to the
    interpreter and is left open. *)
Variable str_of : pyval → string.

Definition Location_repr (self : Location) : string :=
  "in " +:+ str_of (module self) +:+ " on line " +:+ str_of (line self)
    +:+ " at " +:+ str_of (column self).

Definition Location_str (self : Location) : string :=
  "in " +:+ str_of (module self) +:+ " on line " +:+ str_of (line self)
    +:+ " at " +:+ str_of (column self).

Definition CodeSmell_repr (self : CodeSmell) : result string :=
  name ← type_name_lower self;
  Ok (name +:+ " " +:+ Location_repr (location self)
        +:+ " with reason: " +:+ str_of (message self)).

Definition CodeSmell_str (self : CodeSmell) : result string :=
  name ← type_name_lower self;
  Ok (name +:+ " " +:+ Location_str (location self)
        +:+ " with reason: " +:+ str_of (message self)).
End text.

(** The order [sorted] leaves a list in, with [reverse=True]: the key of
    an item is no smaller than the key of any item after it. *)
Definition key_desc {A} (key : A → result Z) (a b : A) : Prop :=
  ∃ ka kb, key a = Ok ka ∧ key b = Ok kb ∧ kb ≤ ka.

Global Instance type_attr_eq_dec : EqDecision type_attr.
Proof. solve_decision. Defined.

(** The smells of one class, in the order of the list. *)
Definition of_class (prio : Priority) (l : list CodeSmell) : list CodeSmell :=
  filter (λ c, type c = Member prio) l.

(** The place of a member in the list [severity] searches. *)
Definition rank (prio : Priority) : Z :=
  match prio with
  | CONVENTION => 0
  | REFACTOR => 1
  | WARNING => 2
  | ERROR => 3
  end.

(** Two records, the graver one last, and the same two the other way
    round. *)
Definition two_records : list (gmap string pyval) :=
  [raw_record "convention" "invalid-name" "C0103" "a.py" 1;
   raw_record "error" "undefined-variable" "E0602" "b.py" 2].

Definition two_records_sorted : list (gmap string pyval) :=
  [raw_record "error" "undefined-variable" "E0602" "b.py" 2;
   raw_record "convention" "invalid-name" "C0103" "a.py" 1].

Definition smell_of (json : gmap string pyval) : CodeSmell :=
  match CodeSmell_init json with
  | Ok c => c
  | Raise _ => sample_smell
  end.

Definition convention_smell : CodeSmell :=
  smell_of (raw_record "convention" "invalid-name" "C0103" "a.py" 1).

Definition error_smell : CodeSmell :=
  smell_of (raw_record "error" "undefined-variable" "E0602" "b.py" 2).

Definition two_report : Report Z :=
  {| code_smells := [error_smell; convention_smell]; grade := 8 |}.

(** ** The error monad *)

Lemma bind_Ok {A B} (m : result A) (f : A → result B) b :
  m ≫= f = Ok b ↔ ∃ a, m = Ok a ∧ f a = Ok b.
Proof.
  destruct m as [a|e]; simpl; split.
  - intros H. by exists a.
  - by intros (a' & [= <-] & H).
  - discriminate.
  - by intros (a' & [=] & _).
Qed.

Lemma bind_Raise {A B} (m : result A) (f : A → result B) e :
  m ≫= f = Raise e ↔ m = Raise e ∨ ∃ a, m = Ok a ∧ f a = Raise e.
Proof.
  destruct m as [a|e']; simpl; split.
  - intros H. right. by exists a.
  - intros [[=]|(a' & [= <-] & H)]. done.
  - intros [= <-]. by left.
  - intros [[= ->]|(a' & [=] & _)]. done.
Qed.

Lemma mapM_Ok {A B} (f : A → result B) (l : list A) (ys : list B) :
  mapM f l = Ok ys ↔ Forall2 (λ x y, f x = Ok y) l ys.
Proof.
  revert ys. induction l as [|x l IH]; intros ys; simpl.
  - split; [by intros [= <-]; constructor|by inversion 1].
  - split.
    + intros H. apply bind_Ok in H as (y & Hy & H).
      apply bind_Ok in H as (ys' & Hys & [= <-]).
      constructor; [done|by apply IH].
    + inversion 1 as [|? y ? ys' Hy Hys]; subst.
      rewrite Hy. simpl. apply IH in Hys. by rewrite Hys.
Qed.

Lemma mapM_total {A B} (f : A → result B) (l : list A) :
  Forall (λ x, is_Ok (f x)) l → is_Ok (mapM f l).
Proof.
  induction 1 as [|x l [y Hy] _ [ys Hys]]; [by eexists|].
  exists (y :: ys). simpl. by rewrite Hy, Hys.
Qed.

Lemma getitem_Ok data k v : getitem data k = Ok v ↔ data !! k = Some v.
Proof. unfold getitem. destruct (data !! k); split; congruence. Qed.

Lemma getitem_Raise data k e :
  getitem data k = Raise e ↔ data !! k = None ∧ e = KeyError (VStr k).
Proof.
  unfold getitem. destruct (data !! k); split; try intros [? ?]; try congruence.
  by intros [= <-].
Qed.

(** ** Priority lookup *)

Lemma get_priority_str s :
  get_priority (VStr s) =
    if decide (s = "convention") then Ok CONVENTION
    else if decide (s = "refactor") then Ok REFACTOR
    else if decide (s = "warning") then Ok WARNING
    else if decide (s = "error") then Ok ERROR
    else Raise (KeyError (VStr s)).
Proof.
  unfold get_priority, subscript, Priority_members.
  cbn [foldl Priority_name hashable].
  change (lower "CONVENTION") with "convention".
  change (lower "REFACTOR") with "refactor".
  change (lower "WARNING") with "warning".
  change (lower "ERROR") with "error".
  rewrite !lookup_insert, lookup_empty.
  repeat case_decide; congruence.
Qed.

Lemma get_priority_Ok name prio :
  get_priority name = Ok prio ↔ name = VStr (lower (Priority_name prio)).
Proof.
  destruct name as [| | |s| |]; try (split; [discriminate|by destruct prio]).
  rewrite get_priority_str.
  destruct prio; vm_compute (lower _);
    repeat case_decide; subst; split; intros; simplify_eq; done.
Qed.

Lemma get_priority_Raise name e :
  get_priority name = Raise e →
  if hashable name then e = KeyError name else e = TypeError.
Proof.
  destruct name as [| | |s| |]; simpl; try by intros [= <-].
  rewrite get_priority_str. repeat case_decide; by intros [= <-].
Qed.


Example get_priority_case_sensitive :
  get_priority (VStr "error") = Ok ERROR ∧
  get_priority (VStr "Error") = Raise (KeyError (VStr "Error")) ∧
  get_priority (VStr "ERROR") = Raise (KeyError (VStr "ERROR")) ∧
  get_priority (VInt 3) = Raise (KeyError (VInt 3)) ∧
  get_priority (VList [VStr "error"]) = Raise TypeError.
Proof. by vm_compute. Qed.

(** ** Construction of a CodeSmell *)

Ltac inv_bind H :=
  repeat match type of H with
  | _ ≫= _ = Ok _ =>
      let x := fresh "x" in let Hx := fresh "Hx" in
      apply bind_Ok in H as (x & Hx & H)
  end.

Lemma Location_init_Ok data l :
  Location_init data = Ok l ↔
    data !! "module" = Some (module l) ∧
    data !! "obj" = Some (python_object l) ∧
    data !! "line" = Some (line l) ∧
    data !! "column" = Some (column l) ∧
    data !! "endLine" = Some (end_line l) ∧
    data !! "path" = Some (path l).
Proof.
  unfold Location_init. split.
  - intros H. inv_bind H. injection H as <-. simpl.
    repeat match goal with H : getitem _ _ = Ok _ |- _ =>
      apply getitem_Ok in H end.
    done.
  - intros (H1 & H2 & H3 & H4 & H5 & H6). unfold getitem.
    rewrite H1, H2, H3, H4, H5, H6. simpl. by destruct l.
Qed.

Lemma CodeSmell_init_Ok data c :
  CodeSmell_init data = Ok c ↔
    ∃ prio,
      data !! "type" = Some (VStr (lower (Priority_name prio))) ∧
      type c = Member prio ∧
      Location_init data = Ok (location c) ∧
      data !! "symbol" = Some (symbol c) ∧
      data !! "message" = Some (message c) ∧
      data !! "message-id" = Some (message_id c).
Proof.
  unfold CodeSmell_init. split.
  - intros H. inv_bind H. injection H as <-. simpl.
    repeat match goal with H : getitem _ _ = Ok _ |- _ =>
      apply getitem_Ok in H end.
    apply get_priority_Ok in Hx0 as ->. by exists x0.
  - intros (prio & H1 & H2 & H3 & H4 & H5 & H6). unfold getitem.
    rewrite H1. simpl.
    rewrite (proj2 (get_priority_Ok _ prio) eq_refl). simpl.
    rewrite H3, H4, H5, H6. simpl. destruct c; simpl in *. by subst.
Qed.

Lemma CodeSmell_init_Raise data e :
  CodeSmell_init data = Raise e →
  match data !! "type" with
  | None => e = KeyError (VStr "type")
  | Some name =>
      if hashable name then ∃ key, e = KeyError key else e = TypeError
  end.
Proof.
  unfold CodeSmell_init, Location_init, getitem.
  destruct (data !! "type") as [name|]; simpl; [|by intros [= <-]].
  destruct (get_priority name) as [prio|e'] eqn:Hp; simpl.
  - assert (hashable name = true) as ->
      by (apply get_priority_Ok in Hp; by subst).
    repeat match goal with
    | |- context [data !! ?k] => destruct (data !! k); simpl
    end; intros [= <-]; eauto.
  - intros [= <-]. apply get_priority_Raise in Hp.
    destruct (hashable name); eauto.
Qed.

(** C5, as amended.  Construction succeeds exactly when the record's
    [type] is one of the four lowercase names and the ten keys are all
    there.  When it fails, it fails with a [KeyError], unless the [type] is
    there and is a list or a dict: that value cannot be hashed, and the
    lookup fails with a [TypeError]. *)
Theorem CodeSmell_init_succeeds_iff (data : gmap string pyval) :
  (is_Ok (CodeSmell_init data) ↔
     (∃ s, data !! "type" = Some (VStr s) ∧ s ∈ priority_names) ∧
     Forall (λ k, is_Some (data !! k)) required_keys) ∧
  (∀ e, CodeSmell_init data = Raise e →
     match data !! "type" with
     | Some (VList _ | VDict _) => e = TypeError
     | _ => ∃ key, e = KeyError key
     end).
Proof.
  split; [split|].
  - intros [c Hc]. apply CodeSmell_init_Ok in Hc
      as (prio & H1 & _ & Hl & H4 & H5 & H6).
    apply Location_init_Ok in Hl as (L1 & L2 & L3 & L4 & L5 & L6).
    split.
    + eexists; split; [done|]. unfold priority_names.
      destruct prio; vm_compute (lower _); set_solver.
    + unfold required_keys. repeat constructor; by eexists.
  - intros [(s & Hs & Hin) Hk]. unfold required_keys in Hk.
    repeat match goal with
    | H : Forall _ (_ :: _) |- _ => apply Forall_cons in H as [[? ?] H]
    end.
    assert (∃ prio, s = lower (Priority_name prio)) as [prio ->].
    { unfold priority_names in Hin.
      repeat (apply elem_of_cons in Hin as [->|Hin]);
        [by exists ERROR|by exists WARNING|by exists REFACTOR
        |by exists CONVENTION|by apply elem_of_nil in Hin]. }
    eexists {| type := Member prio;
               location := {| module := _ |} |}.
    apply CodeSmell_init_Ok. exists prio. simpl.
    rewrite Location_init_Ok. simpl. by repeat split.
  - intros e He. apply CodeSmell_init_Raise in He.
    destruct (data !! "type") as [[]|]; simpl in He; eauto.
Qed.

Lemma CodeSmell_init_succeeds_iff_witness :
  is_Ok (CodeSmell_init sample_record) ∧
  ∃ key, KeyError (VStr "path") = KeyError key.
Proof.
  split.
  - apply (CodeSmell_init_succeeds_iff sample_record). split.
    + exists "warning". split; [reflexivity|]. unfold priority_names.
      apply elem_of_cons; right. apply elem_of_cons; by left.
    + unfold required_keys.
      repeat (apply Forall_cons; split; [vm_compute; by eexists|]).
      constructor.
  - pose proof (proj2 (CodeSmell_init_succeeds_iff
                         (delete "path" sample_record))
                  (KeyError (VStr "path"))) as H.
    apply H. vm_compute. reflexivity.
Defined.

(** C5, as stated, fails: a record that has every key, with a list under
    [type], is turned down with a [TypeError], which is no lookup error. *)
Lemma CodeSmell_init_unhashable_type :
  Forall (λ k, is_Some (unhashable_type_record !! k)) required_keys ∧
  CodeSmell_init unhashable_type_record = Raise TypeError ∧
  ¬ ∃ key, CodeSmell_init unhashable_type_record = Raise (KeyError key).
Proof.
  split; [|split].
  - unfold required_keys.
    repeat (apply Forall_cons; split; [vm_compute; by eexists|]).
      constructor.
  - by vm_compute.
  - intros [key H]. vm_compute in H. discriminate.
Qed.

(** ** Severity *)

Lemma severity_Member c prio :
  type c = Member prio →
  severity c =
    Ok match prio with
       | CONVENTION => 0
       | REFACTOR => 1
       | WARNING => 2
       | ERROR => 3
       end.
Proof. unfold severity. intros ->. by destruct prio. Qed.

Lemma severity_NonMember c v : type c = NonMember v → severity c = Ok (-1).
Proof. unfold severity. by intros ->. Qed.

Lemma severity_total c : ∃ z, severity c = Ok z ∧ -1 ≤ z ≤ 3.
Proof.
  destruct (type c) as [prio|v] eqn:Ht.
  - rewrite (severity_Member c prio Ht). eexists; split; [done|].
    destruct prio; lia.
  - rewrite (severity_NonMember c v Ht). eexists; split; [done|]. lia.
Qed.

Lemma Priority_lt_cases p q :
  Priority_lt p q ↔
    match p, q with
    | CONVENTION, (REFACTOR | WARNING | ERROR)
    | REFACTOR, (WARNING | ERROR)
    | WARNING, ERROR => True
    | _, _ => False
    end.
Proof.
  unfold Priority_lt, severity_order. split.
  - intros (i & j & Hij & Hi & Hj).
    destruct i as [|[|[|[|i]]]]; destruct j as [|[|[|[|j]]]];
      simplify_eq/=; try done; lia.
  - destruct p, q; try done; intros _;
      first [ exists 0%nat, 1%nat; by repeat split; try lia
            | exists 0%nat, 2%nat; by repeat split; try lia
            | exists 0%nat, 3%nat; by repeat split; try lia
            | exists 1%nat, 2%nat; by repeat split; try lia
            | exists 1%nat, 3%nat; by repeat split; try lia
            | exists 2%nat, 3%nat; by repeat split; try lia ].
Qed.

(** C4.  [severity] is 0 for CONVENTION, 1 for REFACTOR, 2 for WARNING and
    3 for ERROR, and so it grows strictly along the ordering
    CONVENTION < REFACTOR < WARNING < ERROR. *)
Theorem severity_rank (c : CodeSmell) (prio : Priority) :
  type c = Member prio →
  severity c =
    Ok match prio with
       | CONVENTION => 0
       | REFACTOR => 1
       | WARNING => 2
       | ERROR => 3
       end ∧
  ∀ c' prio' s s',
    type c' = Member prio' → severity c = Ok s → severity c' = Ok s' →
    (Priority_lt prio prio' ↔ s < s').
Proof.
  intros Ht. split; [by apply severity_Member|].
  intros c' prio' s s' Ht' Hs Hs'.
  rewrite (severity_Member c prio Ht) in Hs.
  rewrite (severity_Member c' prio' Ht') in Hs'.
  injection Hs as <-. injection Hs' as <-.
  rewrite Priority_lt_cases. destruct prio, prio'; split; (done || lia).
Qed.

Lemma severity_rank_witness :
  severity sample_smell = Ok 2 ∧
  ∀ c' prio' s s',
    type c' = Member prio' →
    severity sample_smell = Ok s → severity c' = Ok s' →
    (Priority_lt WARNING prio' ↔ s < s').
Proof. apply (severity_rank sample_smell WARNING). reflexivity. Defined.

(** C9.  [severity] always returns: an integer from -1 to 3.  On a [type]
    that is no member of [Priority] it returns -1.  A smell that comes out
    of the constructor holds a member, and its severity is never -1. *)
Theorem severity_never_fails (c : CodeSmell) :
  (∃ z, severity c = Ok z ∧ -1 ≤ z ≤ 3) ∧
  (∀ v, type c = NonMember v → severity c = Ok (-1)) ∧
  (∀ data, CodeSmell_init data = Ok c →
     (∃ prio, type c = Member prio) ∧
     ∃ z, severity c = Ok z ∧ 0 ≤ z ≤ 3).
Proof.
  split; [apply severity_total|split; [apply severity_NonMember|]].
  intros data Hc. apply CodeSmell_init_Ok in Hc as (prio & _ & Ht & _).
  split; [by exists prio|].
  rewrite (severity_Member c prio Ht). eexists; split; [done|].
  destruct prio; lia.
Qed.

Lemma severity_never_fails_witness :
  (∃ prio, type sample_smell = Member prio) ∧
  ∃ z, severity sample_smell = Ok z ∧ 0 ≤ z ≤ 3.
Proof.
  apply (severity_never_fails sample_smell) with (data := sample_record).
  vm_compute. reflexivity.
Defined.

(** ** The readable symbol *)

Lemma prefix_empty s : String.prefix EmptyString s = true.
Proof. by destruct s. Qed.

Lemma replace_hyphen_get s i :
  String.get i (replace s "-" " ") =
    match String.get i s with
    | Some c => Some (if decide (c = "-"%char) then " "%char else c)
    | None => None
    end.
Proof.
  unfold replace. revert i. induction s as [|c s IH]; intros i; [done|].
  cbn [replace_from String.prefix String.length Nat.sub].
  destruct (ascii_dec "-" c) as [<-|Hc].
  - rewrite prefix_empty. destruct i as [|i]; [done|apply IH].
  - destruct i as [|i]; simpl; [|apply IH].
    case_decide; congruence.
Qed.

Lemma replace_hyphen_length s :
  String.length (replace s "-" " ") = String.length s.
Proof.
  unfold replace. induction s as [|c s IH]; [done|].
  cbn [replace_from String.prefix String.length Nat.sub].
  destruct (ascii_dec "-" c) as [<-|Hc]; [rewrite prefix_empty|];
    simpl; by f_equal.
Qed.

Lemma replace_hyphen_free s :
  (∀ i, String.get i s ≠ Some "-"%char) → replace s "-" " " = s.
Proof.
  unfold replace. induction s as [|c s IH]; intros Hs; [done|].
  cbn [replace_from String.prefix].
  destruct (ascii_dec "-" c) as [<-|Hc]; [by destruct (Hs 0%nat)|].
  f_equal. apply IH. intros i. apply (Hs (S i)).
Qed.

(** C8.  On a smell whose symbol is a string, [get_readable_symbol] returns
    a string of the same length that has a space wherever the symbol has a
    hyphen and the symbol's own character everywhere else; a symbol with no
    hyphen comes back as it is.  The method assigns nothing: the result is
    a function of the smell, which is left as it was. *)
Theorem get_readable_symbol_spec (c : CodeSmell) (s : string) :
  symbol c = VStr s →
  ∃ r, get_readable_symbol c = Ok (VStr r) ∧
    String.length r = String.length s ∧
    (∀ i, String.get i r =
            match String.get i s with
            | Some ch => Some (if decide (ch = "-"%char) then " "%char else ch)
            | None => None
            end) ∧
    ((∀ i, String.get i s ≠ Some "-"%char) → r = s).
Proof.
  intros Hs. exists (replace s "-" " "). unfold get_readable_symbol.
  rewrite Hs. split; [done|].
  split; [apply replace_hyphen_length|].
  split; [apply replace_hyphen_get|apply replace_hyphen_free].
Qed.

Lemma get_readable_symbol_spec_witness :
  ∃ r, get_readable_symbol sample_smell = Ok (VStr r) ∧
    String.length r = String.length "unused-variable" ∧
    (∀ i, String.get i r =
            match String.get i "unused-variable" with
            | Some ch => Some (if decide (ch = "-"%char) then " "%char else ch)
            | None => None
            end) ∧
    ((∀ i, String.get i "unused-variable" ≠ Some "-"%char) →
     r = "unused-variable").
Proof.
  apply (get_readable_symbol_spec sample_smell "unused-variable").
  reflexivity.
Defined.

Example get_readable_symbol_no_self_use loc msg mid :
  get_readable_symbol
    {| type := Member REFACTOR; location := loc;
       symbol := VStr "no-self-use"; message := msg; message_id := mid |}
  = Ok (VStr "no self use").
Proof. reflexivity. Qed.

(** ** Python equality *)

Lemma py_eq_refl a : py_eq a a = true.
Proof. unfold py_eq. by apply bool_decide_eq_true. Qed.

Lemma py_eq_sym a b : py_eq a b = py_eq b a.
Proof. unfold py_eq. apply bool_decide_ext. split; congruence. Qed.

Lemma py_eq_trans a b c :
  py_eq a b = true → py_eq b c = true → py_eq a c = true.
Proof.
  unfold py_eq. rewrite !bool_decide_eq_true. congruence.
Qed.

Lemma py_eq_str a b : py_eq (VStr a) (VStr b) = true → a = b.
Proof. unfold py_eq. rewrite bool_decide_eq_true. simpl. congruence. Qed.

Lemma py_eq_true_l a b c : py_eq a b = true → py_eq a c = py_eq b c.
Proof.
  unfold py_eq. rewrite bool_decide_eq_true. intros ->. done.
Qed.

(** ** Grouping *)

Section groupby_facts.
Context {A : Type}.
Variable key : A → pyval.

Lemma grouper_concat l : ∀ tgt grp,
  concat ((grouper key tgt grp l).*2) = grp ++ l.
Proof.
  induction l as [|x l IH]; intros tgt grp; simpl.
  - by rewrite app_nil_r.
  - destruct (py_eq (key x) tgt); simpl; rewrite IH.
    + by rewrite <-app_assoc.
    + done.
Qed.

Lemma grouper_head l : ∀ tgt grp,
  ∃ g rest, grouper key tgt grp l = (tgt, g) :: rest.
Proof.
  induction l as [|x l IH]; intros tgt grp; simpl; [by eauto|].
  destruct (py_eq (key x) tgt); eauto.
Qed.

Lemma grouper_runs l : ∀ tgt grp,
  is_run key (tgt, grp) → Forall (is_run key) (grouper key tgt grp l).
Proof.
  induction l as [|x l IH]; intros tgt grp [Hne Hall]; simpl.
  - by repeat constructor.
  - destruct (py_eq (key x) tgt) eqn:Hx.
    + apply IH. split; simpl.
      * by destruct grp.
      * apply Forall_app. split; [done|]. by repeat constructor.
    + constructor; [done|]. apply IH. split; simpl; [done|].
      repeat constructor. apply py_eq_refl.
Qed.

Lemma grouper_key_change l : ∀ tgt grp,
  Sorted key_change (grouper key tgt grp l).
Proof.
  induction l as [|x l IH]; intros tgt grp; simpl.
  - by repeat constructor.
  - destruct (py_eq (key x) tgt) eqn:Hx; [apply IH|].
    constructor; [apply IH|].
    destruct (grouper_head l (key x) [x]) as (g & rest & ->).
    by constructor.
Qed.

Lemma groupby_concat l : concat ((groupby key l).*2) = l.
Proof. destruct l as [|x l]; [done|]. apply (grouper_concat l _ [x]). Qed.

Lemma groupby_runs l : Forall (is_run key) (groupby key l).
Proof.
  destruct l as [|x l]; [constructor|]. apply grouper_runs.
  split; simpl; [done|]. repeat constructor. apply py_eq_refl.
Qed.

Lemma groupby_key_change l : Sorted key_change (groupby key l).
Proof. destruct l as [|x l]; [constructor|]. apply grouper_key_change. Qed.

Lemma is_run_same_key kg x y :
  is_run key kg → x ∈ kg.2 → y ∈ kg.2 → py_eq (key x) (key y) = true.
Proof.
  intros [_ Hall] Hx Hy. rewrite Forall_forall in Hall.
  apply py_eq_trans with kg.1; [by apply Hall|].
  rewrite py_eq_sym. by apply Hall.
Qed.

Lemma key_change_members kg1 kg2 x y :
  is_run key kg1 → is_run key kg2 → key_change kg1 kg2 →
  x ∈ kg1.2 → y ∈ kg2.2 → py_eq (key x) (key y) = false.
Proof.
  intros [_ H1] [_ H2] Hch Hx Hy. rewrite Forall_forall in H1, H2.
  rewrite (py_eq_true_l _ _ _ (H1 x Hx)).
  rewrite py_eq_sym, (py_eq_true_l _ _ _ (H2 y Hy)). done.
Qed.

Lemma Sorted_lookup_succ {B} (R : B → B → Prop) (l : list B) i a b :
  Sorted R l → l !! i = Some a → l !! S i = Some b → R a b.
Proof.
  intros Hs. revert i. induction Hs as [|c l Hs IH Hhd]; intros i; [done|].
  destruct i as [|i]; simpl.
  - intros [= ->] Hb. destruct Hhd as [|b' l' Hr]; simplify_eq/=. done.
  - apply IH.
Qed.
End groupby_facts.

(** C10.  The groups of [group_by_file], put end to end, are the report's
    smells in their order; no group is empty; any two members of a group
    have the same path: paths that Python finds equal, and, when they are
    strings, the same string. *)
Theorem group_by_file_partition {G} (r : Report G) :
  concat (group_by_file r) = code_smells r ∧
  Forall (λ g, g ≠ []) (group_by_file r) ∧
  Forall (λ g, ∀ x y, x ∈ g → y ∈ g →
            py_eq (path (location x)) (path (location y)) = true ∧
            ∀ a b, path (location x) = VStr a → path (location y) = VStr b →
                   a = b)
         (group_by_file r).
Proof.
  unfold group_by_file. split; [apply groupby_concat|].
  pose proof (groupby_runs key_func (code_smells r)) as Hruns.
  split; apply Forall_fmap; eapply Forall_impl; try exact Hruns.
  - by intros kg [Hne _].
  - intros kg Hrun x y Hx Hy. simpl in *.
    pose proof (is_run_same_key key_func kg x y Hrun Hx Hy) as Heq.
    unfold key_func in Heq. split; [done|].
    intros a b Ha Hb. rewrite Ha, Hb in Heq. by apply py_eq_str.
Qed.

Lemma group_by_file_partition_witness :
  concat (group_by_file report_ABA) = code_smells report_ABA ∧
  Forall (λ g, g ≠ []) (group_by_file report_ABA) ∧
  Forall (λ g, ∀ x y, x ∈ g → y ∈ g →
            py_eq (path (location x)) (path (location y)) = true ∧
            ∀ a b, path (location x) = VStr a → path (location y) = VStr b →
                   a = b)
         (group_by_file report_ABA).
Proof. apply (group_by_file_partition report_ABA). Defined.

(** C6.  [group_by_file] cuts the smells, in their order, into maximal
    runs of one path: the groups put end to end are the smells, the members
    of a group have equal paths, and two groups that follow each other have
    no path in common.  Three smells with paths A, A, B give the groups
    [[A, A], [B]]; with paths A, B, A they give three groups,
    [[A], [B], [A]]. *)
Theorem group_by_file_runs {G} (r : Report G) :
  concat (group_by_file r) = code_smells r ∧
  (∀ g x y, g ∈ group_by_file r → x ∈ g → y ∈ g →
     py_eq (path (location x)) (path (location y)) = true) ∧
  (∀ i g1 g2 x y,
     group_by_file r !! i = Some g1 → group_by_file r !! S i = Some g2 →
     x ∈ g1 → y ∈ g2 →
     py_eq (path (location x)) (path (location y)) = false) ∧
  (∀ s1 s2 s3 A B,
     code_smells r = [s1; s2; s3] → py_eq A B = false →
     (path (location s1) = A → path (location s2) = A →
      path (location s3) = B →
      group_by_file r = [[s1; s2]; [s3]]) ∧
     (path (location s1) = A → path (location s2) = B →
      path (location s3) = A →
      group_by_file r = [[s1]; [s2]; [s3]])).
Proof.
  pose proof (groupby_runs key_func (code_smells r)) as Hruns.
  split; [apply groupby_concat|]. split; [|split].
  - unfold group_by_file. intros g x y Hg Hx Hy.
    apply list_elem_of_fmap in Hg as (kg & -> & Hkg).
    rewrite Forall_forall in Hruns.
    apply (is_run_same_key key_func kg x y); auto.
  - unfold group_by_file. intros i g1 g2 x y H1 H2 Hx Hy.
    apply list_lookup_fmap_Some in H1 as ([k1 g1'] & -> & H1).
    apply list_lookup_fmap_Some in H2 as ([k2 g2'] & -> & H2).
    rewrite Forall_lookup in Hruns.
    apply (key_change_members key_func (k1, g1') (k2, g2')); eauto.
    apply (Sorted_lookup_succ key_change
             (groupby key_func (code_smells r)) i);
      [apply groupby_key_change|done|done].
  - intros s1 s2 s3 A B Hr HAB. unfold group_by_file. rewrite Hr.
    split; intros H1 H2 H3; simpl; unfold key_func;
      rewrite H1, H2, H3, ?py_eq_refl, ?HAB, ?(py_eq_sym B A), ?HAB; done.
Qed.

Lemma group_by_file_runs_witness :
  group_by_file report_AAB =
    [[smell_in "a.py" "x"; smell_in "a.py" "y"]; [smell_in "b.py" "z"]] ∧
  group_by_file report_ABA =
    [[smell_in "a.py" "x"]; [smell_in "b.py" "y"]; [smell_in "a.py" "z"]].
Proof.
  split.
  - apply (proj2 (proj2 (proj2 (group_by_file_runs report_AAB))) _ _ _
             (VStr "a.py") (VStr "b.py") eq_refl); reflexivity.
  - apply (proj2 (proj2 (proj2 (group_by_file_runs report_ABA))) _ _ _
             (VStr "a.py") (VStr "b.py") eq_refl); reflexivity.
Defined.

(** ** Sorting *)

Section sorted_facts.
Context {A : Type}.
Implicit Types (kx : Z * A) (kl : list (Z * A)).

Lemma insert_perm kx kl : insert kx kl ≡ₚ kx :: kl.
Proof.
  induction kl as [|ky l IH]; simpl; [done|].
  destruct (ky.1 <? kx.1); [|done].
  rewrite IH. apply Permutation_swap.
Qed.

Lemma sort_keyed_perm kl : sort_keyed kl ≡ₚ kl.
Proof.
  induction kl as [|kx l IH]; simpl; [done|].
  by rewrite insert_perm, IH.
Qed.

Lemma insert_sorted kx kl :
  StronglySorted (λ a b, a.1 ≤ b.1) kl →
  StronglySorted (λ a b, a.1 ≤ b.1) (insert kx kl).
Proof.
  induction 1 as [|ky l Hs IH Hall]; simpl; [by repeat constructor|].
  destruct (Z.ltb_spec ky.1 kx.1) as [Hlt|Hge].
  - constructor; [done|].
    rewrite insert_perm. constructor; [lia|done].
  - constructor; [by constructor|].
    constructor; [done|]. eapply Forall_impl; [exact Hall|].
    simpl. intros kz Hz. lia.
Qed.

Lemma sort_keyed_sorted kl :
  StronglySorted (λ a b, a.1 ≤ b.1) (sort_keyed kl).
Proof.
  induction kl as [|kx l IH]; simpl; [constructor|by apply insert_sorted].
Qed.

(** Stability: among the items of one key, insertion changes nothing but
    the arrival of the new item in front. *)
Lemma insert_filter k kx kl :
  filter (λ ky, ky.1 = k) (insert kx kl) = filter (λ ky, ky.1 = k) (kx :: kl).
Proof.
  induction kl as [|ky l IH]; simpl; [done|].
  destruct (Z.ltb_spec ky.1 kx.1) as [Hlt|Hge]; [|done].
  rewrite !filter_cons in *. rewrite IH.
  repeat case_decide; try done; lia.
Qed.

Lemma sort_keyed_filter k kl :
  filter (λ ky, ky.1 = k) (sort_keyed kl) = filter (λ ky, ky.1 = k) kl.
Proof.
  induction kl as [|kx l IH]; simpl; [done|].
  by rewrite insert_filter, !filter_cons, IH.
Qed.

Lemma StronglySorted_reverse {B} (R : relation B) (l : list B) :
  StronglySorted R l → StronglySorted (flip R) (reverse l).
Proof.
  induction 1 as [|x l Hs IH Hall]; [constructor|].
  rewrite reverse_cons. apply StronglySorted_app_2; [|done|by repeat constructor].
  intros y x' Hy ->%list_elem_of_singleton. unfold flip.
  rewrite Forall_forall in Hall. apply Hall. by apply elem_of_reverse.
Qed.

Variable key : A → result Z.

Lemma zip_keyed (l : list A) keys :
  Forall2 (λ x k, key x = Ok k) l keys →
  Forall (keyed_by key) (zip keys l) ∧ (zip keys l).*2 = l.
Proof.
  induction 1 as [|x k l ks Hk _ [IH1 IH2]]; simpl; [by split|].
  split; [by constructor|by f_equal].
Qed.

Lemma keyed_filter k kl :
  Forall (keyed_by key) kl →
  filter (λ x, key x = Ok k) (kl.*2) = (filter (λ ky, ky.1 = k) kl).*2.
Proof.
  induction 1 as [|kx l Hk _ IH]; [done|].
  rewrite fmap_cons, !filter_cons, IH. unfold keyed_by in Hk.
  rewrite Hk. repeat case_decide; simplify_eq; done.
Qed.

(** [sorted(l, key=key, reverse=True)] when [key] returns on every item:
    a permutation of [l], in non-increasing order of key, with the items
    of any one key in the order they have in [l]. *)
Lemma sorted_reverse_spec (l : list A) :
  Forall (λ x, is_Ok (key x)) l →
  ∃ l', sorted l key true = Ok l' ∧
    l' ≡ₚ l ∧
    StronglySorted
      (λ a b, ∃ ka kb, key a = Ok ka ∧ key b = Ok kb ∧ kb ≤ ka) l' ∧
    ∀ k, filter (λ x, key x = Ok k) l' = filter (λ x, key x = Ok k) l.
Proof.
  intros Hl. destruct (mapM_total key l Hl) as [keys Hkeys].
  unfold sorted. rewrite Hkeys. simpl. eexists; split; [done|].
  apply mapM_Ok, zip_keyed in Hkeys as [Hkd Hsnd].
  set (keyed := zip keys l) in *.
  set (res := reverse (sort_keyed (reverse keyed))).
  assert (res ≡ₚ keyed) as Hperm.
  { unfold res. by rewrite reverse_Permutation, sort_keyed_perm,
      reverse_Permutation. }
  assert (Forall (keyed_by key) res) as Hres by by rewrite Hperm.
  split; [by rewrite Hperm, Hsnd|]. split.
  - assert (StronglySorted
              (λ a b, keyed_by key a ∧ keyed_by key b ∧ b.1 ≤ a.1) res)
      as Hs.
    { clear Hperm. pose proof (StronglySorted_reverse _ _
        (sort_keyed_sorted (reverse keyed))) as Hs. fold res in Hs.
      induction Hs as [|kx res' Hs IH Hall]; [constructor|].
      apply Forall_cons in Hres as [Hkx Hres].
      constructor; [by apply IH|].
      rewrite Forall_forall in Hall, Hres. apply Forall_forall.
      intros ky Hy. split; [done|]. split; [by apply Hres|by apply Hall]. }
    eapply StronglySorted_fmap; [|exact Hs].
    intros kx ky (Hx & Hy & Hle). by exists kx.1, ky.1.
  - intros k. rewrite (keyed_filter k res Hres). unfold res.
    rewrite filter_reverse, sort_keyed_filter, filter_reverse,
      reverse_involutive.
    by rewrite <-(keyed_filter k keyed Hkd), Hsnd.
Qed.
End sorted_facts.

(** ** Construction of a Report *)

Lemma convert_loop_mapM json_content : ∀ ret,
  convert_loop ret json_content =
    (smells ← mapM CodeSmell_init json_content; Ok (ret ++ smells)).
Proof.
  induction json_content as [|smell rest IH]; intros ret; simpl.
  - by rewrite app_nil_r.
  - destruct (CodeSmell_init smell) as [c|e]; simpl; [|done].
    rewrite IH. destruct (mapM CodeSmell_init rest); simpl; [|done].
    by rewrite <-app_assoc.
Qed.

(** The loop stops at the first record that does not convert. *)
Lemma convert_loop_Raise json_content : ∀ ret i smell e,
  json_content !! i = Some smell → CodeSmell_init smell = Raise e →
  ∃ j bad e', (j ≤ i)%nat ∧ json_content !! j = Some bad ∧
    CodeSmell_init bad = Raise e' ∧
    (∀ k good, (k < j)%nat → json_content !! k = Some good →
       is_Ok (CodeSmell_init good)) ∧
    convert_loop ret json_content = Raise e'.
Proof.
  induction json_content as [|x rest IH]; intros ret i smell e Hi He;
    [done|].
  destruct (CodeSmell_init x) as [c|e0] eqn:Hx.
  - destruct i as [|i]; [simpl in Hi; congruence|].
    destruct (IH (ret ++ [c]) i smell e Hi He)
      as (j & bad & e' & Hj & Hbad & He' & Hbefore & Hloop).
    exists (S j), bad, e'. split_and!; [lia|done|done| |].
    + intros [|k] good Hk Hgood; simplify_eq/=; [by eexists|].
      apply (Hbefore k); [lia|done].
    + simpl. by rewrite Hx.
  - exists 0%nat, x, e0. split_and!; [lia|done|done| |].
    + intros k good Hk. lia.
    + simpl. by rewrite Hx.
Qed.

Lemma missing_path_fails data :
  data !! "path" = None → ∃ e, CodeSmell_init data = Raise e.
Proof.
  intros Hp. destruct (CodeSmell_init data) as [c|e] eqn:Hc; [|by eexists].
  apply CodeSmell_init_Ok in Hc as (_ & _ & _ & Hl & _).
  apply Location_init_Ok in Hl as (_ & _ & _ & _ & _ & Hl). congruence.
Qed.

(** C7.  If one record of the input does not convert, the construction of
    the report raises: the loop stops at the first such record, with that
    record's error, and no report comes out.  A record with no [path] is
    such a record. *)
Theorem Report_init_all_or_nothing {G} (json_content : list (gmap string pyval))
    (grade : G) (i : nat) (smell : gmap string pyval) :
  json_content !! i = Some smell →
  ((∃ e, CodeSmell_init smell = Raise e) ∨ smell !! "path" = None) →
  ∃ j bad e', (j ≤ i)%nat ∧ json_content !! j = Some bad ∧
    CodeSmell_init bad = Raise e' ∧
    (∀ k good, (k < j)%nat → json_content !! k = Some good →
       is_Ok (CodeSmell_init good)) ∧
    convert_dict json_content = Raise e' ∧
    Report_init json_content grade = Raise e' ∧
    ∀ r, Report_init json_content grade ≠ Ok r.
Proof.
  intros Hi Hfail.
  assert (∃ e, CodeSmell_init smell = Raise e) as [e He].
  { destruct Hfail as [?|Hp]; [done|by apply missing_path_fails]. }
  destruct (convert_loop_Raise json_content [] i smell e Hi He)
    as (j & bad & e' & Hj & Hbad & He' & Hbefore & Hloop).
  exists j, bad, e'. unfold Report_init, convert_dict. rewrite Hloop.
  by split_and!.
Qed.

Lemma Report_init_all_or_nothing_witness :
  ∃ j bad e', (j ≤ 1)%nat ∧ records_missing_path !! j = Some bad ∧
    CodeSmell_init bad = Raise e' ∧
    (∀ k good, (k < j)%nat → records_missing_path !! k = Some good →
       is_Ok (CodeSmell_init good)) ∧
    convert_dict records_missing_path = Raise e' ∧
    Report_init records_missing_path 8 = Raise e' ∧
    ∀ r, Report_init records_missing_path 8 ≠ Ok r.
Proof.
  apply (Report_init_all_or_nothing records_missing_path 8 1
           (delete "path" sample_record)).
  - reflexivity.
  - right. vm_compute. reflexivity.
Defined.

(** C3.  When every record converts, the report is built, and its smells
    are the converted records rearranged: in non-increasing order of
    severity, those of any one severity in the order of their records.  The
    grade is kept as given. *)
Theorem Report_init_sorted_stable {G} (json_content : list (gmap string pyval))
    (g : G) :
  Forall (λ smell, is_Ok (CodeSmell_init smell)) json_content →
  ∃ r smells,
    Report_init json_content g = Ok r ∧
    Forall2 (λ smell c, CodeSmell_init smell = Ok c) json_content smells ∧
    code_smells r ≡ₚ smells ∧
    StronglySorted
      (λ a b, ∃ sa sb, severity a = Ok sa ∧ severity b = Ok sb ∧ sb ≤ sa)
      (code_smells r) ∧
    (∀ k, filter (λ c, severity c = Ok k) (code_smells r) =
          filter (λ c, severity c = Ok k) smells) ∧
    grade r = g.
Proof.
  intros Hall.
  destruct (mapM_total CodeSmell_init json_content Hall)
    as [smells Hsmells].
  destruct (sorted_reverse_spec severity smells)
    as (l' & Hl' & Hperm & Hsorted & Hstable).
  { apply Forall_forall. intros c _.
    destruct (severity_total c) as (z & Hz & _). by exists z. }
  exists {| code_smells := l'; grade := g |}, smells.
  unfold Report_init, convert_dict. rewrite convert_loop_mapM, Hsmells.
  simpl. rewrite Hl'. simpl. split_and!; try done.
  by apply mapM_Ok.
Qed.

Lemma Report_init_sorted_stable_witness :
  ∃ r smells,
    Report_init sample_records 8 = Ok r ∧
    Forall2 (λ smell c, CodeSmell_init smell = Ok c) sample_records smells ∧
    code_smells r ≡ₚ smells ∧
    StronglySorted
      (λ a b, ∃ sa sb, severity a = Ok sa ∧ severity b = Ok sb ∧ sb ≤ sa)
      (code_smells r) ∧
    (∀ k, filter (λ c, severity c = Ok k) (code_smells r) =
          filter (λ c, severity c = Ok k) smells) ∧
    grade r = 8.
Proof.
  apply (Report_init_sorted_stable sample_records 8).
  unfold sample_records.
  repeat (apply Forall_cons; split; [vm_compute; by eexists|]).
  constructor.
Defined.

Example Report_init_sample_order :
  (λ r, symbol <$> code_smells r) <$> Report_init sample_records 8 =
  Ok [VStr "undefined-variable"; VStr "unused-variable";
      VStr "invalid-name"; VStr "missing-docstring"].
Proof. by vm_compute. Qed.

(** ** The JSON form of a smell *)

Section jsonify_facts.
Variable Enum_dict : Priority → result (list (string * pyobj)).

Lemma dumps_OVal default n v :
  dumps native default n (OVal v) = Ok v.
Proof. by destruct n. Qed.

Lemma jsonify_default_smell c prio sev :
  type c = Member prio → severity c = Ok sev →
  jsonify_default Enum_dict c (OCodeSmell c) =
    Ok [("type", OVal (VStr (lower (Priority_name prio))));
        ("location", OLocation (location c));
        ("symbol", OVal (symbol c));
        ("message", OVal (message c));
        ("message_id", OVal (message_id c));
        ("severity", OVal (VInt sev))].
Proof.
  intros Ht Hsev. unfold jsonify_default, type_name_lower.
  rewrite Hsev, Ht. reflexivity.
Qed.

Lemma jsonify_default_location c l prio sev :
  type c = Member prio → severity c = Ok sev →
  jsonify_default Enum_dict c (OLocation l) =
    Ok [("module", OVal (module l));
        ("python_object", OVal (python_object l));
        ("line", OVal (line l));
        ("column", OVal (column l));
        ("end_line", OVal (end_line l));
        ("path", OVal (path l));
        ("severity", OVal (VInt sev));
        ("type", OVal (VStr (lower (Priority_name prio))))].
Proof.
  intros Ht Hsev. unfold jsonify_default, type_name_lower.
  rewrite Hsev, Ht. reflexivity.
Qed.

Lemma dumps_smell n c prio sev :
  type c = Member prio → severity c = Ok sev →
  dumps native (jsonify_default Enum_dict c) (S (S n)) (OCodeSmell c) =
    Ok (VDict (list_to_map
      [("type", VStr (lower (Priority_name prio)));
       ("location", VDict (list_to_map
          [("module", module (location c));
           ("python_object", python_object (location c));
           ("line", line (location c));
           ("column", column (location c));
           ("end_line", end_line (location c));
           ("path", path (location c));
           ("severity", VInt sev);
           ("type", VStr (lower (Priority_name prio)))]));
       ("symbol", symbol c);
       ("message", message c);
       ("message_id", message_id c);
       ("severity", VInt sev)])).
Proof.
  intros Ht Hsev.
  cbn [dumps native].
  rewrite (jsonify_default_smell c prio sev Ht Hsev).
  cbn [mbind result_bind mapM fst snd native].
  rewrite (jsonify_default_location c _ prio sev Ht Hsev).
  cbn [mbind result_bind mapM fst snd native].
  rewrite !dumps_OVal. reflexivity.
Qed.

Lemma jsonify_Member c prio sev :
  type c = Member prio → severity c = Ok sev →
  jsonify Enum_dict c =
    Ok (VDict (list_to_map
      [("type", VStr (lower (Priority_name prio)));
       ("location", VDict (list_to_map
          [("module", module (location c));
           ("python_object", python_object (location c));
           ("line", line (location c));
           ("column", column (location c));
           ("end_line", end_line (location c));
           ("path", path (location c));
           ("severity", VInt sev);
           ("type", VStr (lower (Priority_name prio)))]));
       ("symbol", symbol c);
       ("message", message c);
       ("message_id", message_id c);
       ("severity", VInt sev)])).
Proof.
  intros Ht Hsev. unfold jsonify.
  change recursion_limit with (S (S 998)). by apply dumps_smell.
Qed.

Lemma jsonify_NonMember c v :
  type c = NonMember v → jsonify Enum_dict c = Raise AttributeError.
Proof.
  intros Ht. unfold jsonify. change recursion_limit with (S 999).
  cbn [dumps native]. unfold jsonify_default, type_name_lower.
  rewrite (severity_NonMember c v Ht), Ht. reflexivity.
Qed.
End jsonify_facts.

(** C2.  The document [jsonify] writes for a smell that came out of the
    constructor is an object with the six keys type, location, symbol,
    message, message_id and severity.  Under [severity] it has the integer
    [severity] returns; under [type] the lowercase name of the member, the
    very string the record had; under [location] an object. *)
Theorem jsonify_top_level
    (Enum_dict : Priority → result (list (string * pyobj)))
    (data : gmap string pyval) (c : CodeSmell) :
  CodeSmell_init data = Ok c →
  ∃ top sev prio loc,
    jsonify Enum_dict c = Ok (VDict top) ∧
    dom top = list_to_set ["type"; "location"; "symbol"; "message";
                           "message_id"; "severity"] ∧
    severity c = Ok sev ∧ top !! "severity" = Some (VInt sev) ∧
    type c = Member prio ∧
    top !! "type" = Some (VStr (lower (Priority_name prio))) ∧
    top !! "type" = data !! "type" ∧
    top !! "location" = Some (VDict loc).
Proof.
  intros Hc. apply CodeSmell_init_Ok in Hc as (prio & Hty & Ht & _).
  destruct (severity_total c) as (sev & Hsev & _).
  eexists _, sev, prio, _.
  split; [by apply jsonify_Member|].
  rewrite Hty. by split_and!.
Qed.

Lemma jsonify_top_level_witness :
  ∃ top sev prio loc,
    jsonify (λ _, Raise ValueError) sample_smell = Ok (VDict top) ∧
    dom top = list_to_set ["type"; "location"; "symbol"; "message";
                           "message_id"; "severity"] ∧
    severity sample_smell = Ok sev ∧ top !! "severity" = Some (VInt sev) ∧
    type sample_smell = Member prio ∧
    top !! "type" = Some (VStr (lower (Priority_name prio))) ∧
    top !! "type" = sample_record !! "type" ∧
    top !! "location" = Some (VDict loc).
Proof.
  apply (jsonify_top_level _ sample_record sample_smell).
  vm_compute. reflexivity.
Defined.

(** C1, as amended.  Under [location] the document has a nested object,
    not a string.  Its keys are the six attributes of the Location and,
    after them, [severity] and [type]: the hook that [jsonify] hands to the
    encoder adds these two entries, with the values of the smell, to every
    object it is asked to convert. *)
Theorem jsonify_location
    (Enum_dict : Priority → result (list (string * pyobj)))
    (data : gmap string pyval) (c : CodeSmell) :
  CodeSmell_init data = Ok c →
  ∃ top loc sev prio,
    jsonify Enum_dict c = Ok (VDict top) ∧
    top !! "location" = Some (VDict loc) ∧
    dom loc = location_fields ∪ {["severity"; "type"]} ∧
    loc !! "module" = Some (module (location c)) ∧
    loc !! "python_object" = Some (python_object (location c)) ∧
    loc !! "line" = Some (line (location c)) ∧
    loc !! "column" = Some (column (location c)) ∧
    loc !! "end_line" = Some (end_line (location c)) ∧
    loc !! "path" = Some (path (location c)) ∧
    severity c = Ok sev ∧ loc !! "severity" = Some (VInt sev) ∧
    type c = Member prio ∧
    loc !! "type" = Some (VStr (lower (Priority_name prio))).
Proof.
  intros Hc. apply CodeSmell_init_Ok in Hc as (prio & Hty & Ht & _).
  destruct (severity_total c) as (sev & Hsev & _).
  eexists _, _, sev, prio.
  split; [by apply jsonify_Member|].
  split; [done|]. by split_and!.
Qed.

Lemma jsonify_location_witness :
  ∃ top loc sev prio,
    jsonify (λ _, Raise ValueError) sample_smell = Ok (VDict top) ∧
    top !! "location" = Some (VDict loc) ∧
    dom loc = location_fields ∪ {["severity"; "type"]} ∧
    loc !! "module" = Some (module (location sample_smell)) ∧
    loc !! "python_object" = Some (python_object (location sample_smell)) ∧
    loc !! "line" = Some (line (location sample_smell)) ∧
    loc !! "column" = Some (column (location sample_smell)) ∧
    loc !! "end_line" = Some (end_line (location sample_smell)) ∧
    loc !! "path" = Some (path (location sample_smell)) ∧
    severity sample_smell = Ok sev ∧ loc !! "severity" = Some (VInt sev) ∧
    type sample_smell = Member prio ∧
    loc !! "type" = Some (VStr (lower (Priority_name prio))).
Proof.
  apply (jsonify_location _ sample_record sample_smell).
  vm_compute. reflexivity.
Defined.

(** C1, as stated, fails: in the document of the sample smell the object
    under [location] has the keys [severity] and [type] next to the six
    attributes of the Location. *)
Lemma jsonify_location_extra_keys :
  CodeSmell_init sample_record = Ok sample_smell ∧
  ∃ top loc,
    jsonify (λ _, Raise ValueError) sample_smell = Ok (VDict top) ∧
    top !! "location" = Some (VDict loc) ∧
    loc !! "severity" = Some (VInt 2) ∧
    loc !! "type" = Some (VStr "warning") ∧
    dom loc ≠ location_fields.
Proof.
  split; [by vm_compute|].
  eexists _, _.
  split; [by apply (jsonify_Member _ sample_smell WARNING 2)|].
  split; [done|]. split; [done|]. split; [done|].
  intros Hdom.
  assert ("severity" ∈ location_fields) as Hin.
  { rewrite <-Hdom, dom_list_to_map_L. set_solver. }
  unfold location_fields in Hin. set_solver.
Qed.

(** * Further properties of the module *)

(** ** Reading a record *)

Lemma not_elem_of_cons_ne {A} (x y : A) (l : list A) :
  x ∉ y :: l → x ≠ y ∧ x ∉ l.
Proof. intros H. split; intros ?; apply H; subst; by constructor. Qed.

Ltac split_keys H :=
  repeat match type of H with
  | _ ∉ _ :: _ =>
      let Hne := fresh "Hne" in
      apply not_elem_of_cons_ne in H as [Hne H]
  end.

(** One step through a list of keys read in order: either the key at hand
    is the missing one, or it is there and the reading goes on. *)
Ltac read_key Hkeys Hpre Hk pre :=
  let Hp := fresh "Hp" in
  destruct pre as [|? pre]; simpl in Hkeys;
  [injection Hkeys as <- _; by rewrite Hk
  |injection Hkeys as <- Hkeys;
   apply Forall_cons in Hpre as [[? Hp] Hpre]; rewrite Hp; simpl].

Lemma Location_init_Raise (data : gmap string pyval) (e : exn) :
  Location_init data = Raise e ↔
  ∃ pre k post,
    location_keys = pre ++ k :: post ∧
    Forall (λ k', is_Some (data !! k')) pre ∧
    data !! k = None ∧ e = KeyError (VStr k).
Proof.
  unfold Location_init, getitem, location_keys. split.
  - destruct (data !! "module") eqn:H1; simpl;
      [|intros [= <-]; by exists [], "module", (tail location_keys)].
    destruct (data !! "obj") eqn:H2; simpl;
      [|intros [= <-]; exists ["module"], "obj"; eexists;
        split_and!; [done| |done|done]; repeat constructor; by eexists].
    destruct (data !! "line") eqn:H3; simpl;
      [|intros [= <-]; exists ["module"; "obj"], "line"; eexists;
        split_and!; [done| |done|done]; repeat constructor; by eexists].
    destruct (data !! "column") eqn:H4; simpl;
      [|intros [= <-]; exists ["module"; "obj"; "line"], "column"; eexists;
        split_and!; [done| |done|done]; repeat constructor; by eexists].
    destruct (data !! "endLine") eqn:H5; simpl;
      [|intros [= <-]; exists ["module"; "obj"; "line"; "column"], "endLine";
        eexists; split_and!; [done| |done|done];
        repeat constructor; by eexists].
    destruct (data !! "path") eqn:H6; simpl; [done|].
    intros [= <-].
    exists ["module"; "obj"; "line"; "column"; "endLine"], "path"; eexists.
    split_and!; [done| |done|done]. repeat constructor; by eexists.
  - intros (pre & k & post & Hkeys & Hpre & Hk & ->).
    do 6 (read_key Hkeys Hpre Hk pre). by destruct pre.
Qed.

(** X1.  [Location.__init__] reads its six keys in the order module, obj,
    line, column, endLine, path, and fails exactly when one of them is
    missing, with a [KeyError] that names the first one missing. *)
Theorem Location_init_first_missing (data : gmap string pyval) (e : exn) :
  (Location_init data = Raise e ↔
   ∃ pre k post,
     location_keys = pre ++ k :: post ∧
     Forall (λ k', is_Some (data !! k')) pre ∧
     data !! k = None ∧ e = KeyError (VStr k)) ∧
  (Location_init data = Raise e →
   ∃ k, k ∈ location_keys ∧ data !! k = None ∧ e = KeyError (VStr k)).
Proof.
  split; [apply Location_init_Raise|].
  intros He. apply Location_init_Raise in He
    as (pre & k & post & Hkeys & _ & Hk & ->).
  exists k. split; [|done].
  rewrite Hkeys. apply elem_of_app. right. by left.
Qed.

Lemma Location_init_first_missing_witness :
  Location_init (delete "line" (delete "path" sample_record)) =
    Raise (KeyError (VStr "line")).
Proof.
  apply (proj1 (Location_init_first_missing _ _)).
  exists ["module"; "obj"], "line", ["column"; "endLine"; "path"].
  split_and!; [reflexivity| |reflexivity|reflexivity].
  repeat (apply Forall_cons; split; [vm_compute; by eexists|]).
  constructor.
Defined.

(** X2.  [Location.__init__] looks at its six keys only: a record with one
    more key, or one other key less, gives the same Location or the same
    error. *)
Theorem Location_init_other_keys (data : gmap string pyval) (k : string)
    (v : pyval) :
  k ∉ location_keys →
  Location_init (<[k:=v]> data) = Location_init data ∧
  Location_init (delete k data) = Location_init data.
Proof.
  unfold location_keys. intros Hk. split_keys Hk.
  unfold Location_init, getitem.
  by rewrite !lookup_insert_ne, !lookup_delete_ne by done.
Qed.

Lemma Location_init_other_keys_witness :
  Location_init (<["endColumn" := VInt 9]> sample_record) =
    Location_init sample_record ∧
  Location_init (delete "symbol" sample_record) =
    Location_init sample_record.
Proof.
  split.
  - apply (Location_init_other_keys sample_record "endColumn" (VInt 9)).
    unfold location_keys. intros H.
    repeat (apply elem_of_cons in H as [H|H]; [discriminate|]).
    by apply elem_of_nil in H.
  - apply (Location_init_other_keys sample_record "symbol" VNone).
    unfold location_keys. intros H.
    repeat (apply elem_of_cons in H as [H|H]; [discriminate|]).
    by apply elem_of_nil in H.
Defined.

Lemma get_priority_Raise_iff name e :
  get_priority name = Raise e ↔
    (∀ prio, name ≠ VStr (lower (Priority_name prio))) ∧
    e = if hashable name then KeyError name else TypeError.
Proof.
  split.
  - intros H. split.
    + intros prio Hn. apply (get_priority_Ok name prio) in Hn. congruence.
    + apply get_priority_Raise in H. by destruct (hashable name).
  - intros [Hn ->]. destruct (get_priority name) as [prio|e] eqn:Hp.
    + apply get_priority_Ok in Hp. by destruct (Hn prio).
    + apply get_priority_Raise in Hp. destruct (hashable name); by subst.
Qed.

(** X3.  [CodeSmell.__init__] fails at the first step that fails, in this
    order: the lookup of [type]; the lookup of the priority, which raises
    [KeyError] with the value found under [type], or [TypeError] when that
    value cannot be hashed, whatever else the record lacks; then the keys
    module, obj, line, column, endLine, path, symbol, message, message-id,
    with a [KeyError] that names the first one missing. *)
Theorem CodeSmell_init_first_error (data : gmap string pyval) (e : exn) :
  CodeSmell_init data = Raise e ↔
    (data !! "type" = None ∧ e = KeyError (VStr "type")) ∨
    (∃ name, data !! "type" = Some name ∧
       (∀ prio, name ≠ VStr (lower (Priority_name prio))) ∧
       e = if hashable name then KeyError name else TypeError) ∨
    (∃ prio pre k post,
       data !! "type" = Some (VStr (lower (Priority_name prio))) ∧
       keys_after_type = pre ++ k :: post ∧
       Forall (λ k', is_Some (data !! k')) pre ∧
       data !! k = None ∧ e = KeyError (VStr k)).
Proof.
  split.
  - intros He. unfold CodeSmell_init in He.
    apply bind_Raise in He as [He|(name & Hty & He)];
      [apply getitem_Raise in He as [Hty ->]; by left|].
    apply getitem_Ok in Hty.
    apply bind_Raise in He as [He|(prio & Hp & He)].
    { right; left. exists name. split; [done|].
      by apply get_priority_Raise_iff. }
    apply get_priority_Ok in Hp as ->. right; right. exists prio.
    apply bind_Raise in He as [Hl|(l & Hl & He)].
    { apply Location_init_Raise in Hl
        as (pre & k & post & Hkeys & Hpre & Hk & ->).
      exists pre, k, (post ++ ["symbol"; "message"; "message-id"]).
      split_and!; try done.
      unfold keys_after_type. rewrite Hkeys. by rewrite <-app_assoc. }
    apply Location_init_Ok in Hl as (L1 & L2 & L3 & L4 & L5 & L6).
    assert (Forall (λ k', is_Some (data !! k')) location_keys) as Hloc.
    { unfold location_keys. repeat constructor; by eexists. }
    apply bind_Raise in He as [He|(sym & H7 & He)].
    { apply getitem_Raise in He as [Hk ->].
      exists location_keys, "symbol", ["message"; "message-id"].
      by split_and!. }
    apply getitem_Ok in H7.
    apply bind_Raise in He as [He|(msg & H8 & He)].
    { apply getitem_Raise in He as [Hk ->].
      exists (location_keys ++ ["symbol"]), "message", ["message-id"].
      split_and!; [done|done| |done|done].
      apply Forall_app; split; [done|]. repeat constructor; by eexists. }
    apply getitem_Ok in H8.
    apply bind_Raise in He as [He|(mid & H9 & He)]; [|done].
    apply getitem_Raise in He as [Hk ->].
    exists (location_keys ++ ["symbol"; "message"]), "message-id", [].
    split_and!; [done|done| |done|done].
    apply Forall_app; split; [done|]. repeat constructor; by eexists.
  - unfold CodeSmell_init, Location_init, getitem.
    intros [[Hty ->]|[(name & Hty & Hn & ->)
                     |(prio & pre & k & post & Hty & Hkeys & Hpre & Hk & ->)]].
    + by rewrite Hty.
    + rewrite Hty. simpl.
      by rewrite (proj2 (get_priority_Raise_iff name _) (conj Hn eq_refl)).
    + rewrite Hty. simpl.
      rewrite (proj2 (get_priority_Ok _ prio) eq_refl). simpl.
      unfold keys_after_type, location_keys in Hkeys.
      do 9 (read_key Hkeys Hpre Hk pre). by destruct pre.
Qed.

Lemma CodeSmell_init_first_error_witness :
  CodeSmell_init (<["type" := VStr "fatal"]> (delete "path" sample_record)) =
    Raise (KeyError (VStr "fatal")).
Proof.
  apply CodeSmell_init_first_error. right; left.
  exists (VStr "fatal"). split; [reflexivity|]. split; [|reflexivity].
  intros prio. destruct prio; discriminate.
Defined.

(** X4.  [CodeSmell.__init__] looks at its ten keys only: whatever else a
    record carries, or lacks, changes neither the smell nor the error. *)
Theorem CodeSmell_init_other_keys (data : gmap string pyval) (k : string)
    (v : pyval) :
  k ∉ required_keys →
  CodeSmell_init (<[k:=v]> data) = CodeSmell_init data ∧
  CodeSmell_init (delete k data) = CodeSmell_init data.
Proof.
  unfold required_keys. intros Hk. split_keys Hk.
  unfold CodeSmell_init, Location_init, getitem.
  by rewrite !lookup_insert_ne, !lookup_delete_ne by done.
Qed.

Lemma CodeSmell_init_other_keys_witness :
  CodeSmell_init (<["endColumn" := VInt 9]> sample_record) =
    CodeSmell_init sample_record ∧
  CodeSmell_init (delete "endColumn" sample_record) =
    CodeSmell_init sample_record.
Proof.
  apply (CodeSmell_init_other_keys sample_record "endColumn" (VInt 9)).
  unfold required_keys. intros H.
  repeat (apply elem_of_cons in H as [H|H]; [discriminate|]).
  by apply elem_of_nil in H.
Defined.

(** X5.  [get_priority] and the lowercase name of a member undo each
    other: the lowercase name gives the member back, and nothing else
    gives it.  The name as the enum spells it, in capitals, and the value
    of the member are both turned down with a [KeyError]. *)
Theorem get_priority_round_trip (prio : Priority) :
  get_priority (VStr (lower (Priority_name prio))) = Ok prio ∧
  (∀ name, get_priority name = Ok prio →
     name = VStr (lower (Priority_name prio))) ∧
  get_priority (VStr (Priority_name prio)) =
    Raise (KeyError (VStr (Priority_name prio))) ∧
  get_priority (VStr (Priority_value prio)) =
    Raise (KeyError (VStr (Priority_value prio))).
Proof.
  split_and!.
  - by apply get_priority_Ok.
  - intros name. apply get_priority_Ok.
  - by destruct prio.
  - by destruct prio.
Qed.

Lemma get_priority_round_trip_witness :
  get_priority (VStr "refactor") = Ok REFACTOR ∧
  VStr "refactor" = VStr (lower (Priority_name REFACTOR)).
Proof.
  split.
  - apply (get_priority_round_trip REFACTOR).
  - apply (proj1 (proj2 (get_priority_round_trip REFACTOR))).
    vm_compute. reflexivity.
Defined.

(** ** More on the JSON form *)

Lemma lower_name_inj p q :
  lower (Priority_name p) = lower (Priority_name q) → p = q.
Proof. destruct p, q; (done || discriminate). Qed.

Lemma jsonify_lookups Enum_dict c prio :
  type c = Member prio →
  ∃ top loc sev,
    jsonify Enum_dict c = Ok (VDict top) ∧
    severity c = Ok sev ∧
    top !! "type" = Some (VStr (lower (Priority_name prio))) ∧
    top !! "location" = Some (VDict loc) ∧
    top !! "symbol" = Some (symbol c) ∧
    top !! "message" = Some (message c) ∧
    top !! "message_id" = Some (message_id c) ∧
    top !! "severity" = Some (VInt sev) ∧
    top !! "module" = None ∧
    loc !! "module" = Some (module (location c)) ∧
    loc !! "python_object" = Some (python_object (location c)) ∧
    loc !! "line" = Some (line (location c)) ∧
    loc !! "column" = Some (column (location c)) ∧
    loc !! "end_line" = Some (end_line (location c)) ∧
    loc !! "path" = Some (path (location c)).
Proof.
  intros Ht. destruct (severity_total c) as (sev & Hsev & _).
  eexists _, _, sev. split; [by apply jsonify_Member|]. by split_and!.
Qed.

(** X6.  The document [jsonify] writes carries every value of the record
    the smell was built from, unchanged: [type], [symbol] and [message]
    under their own names, [message-id] under [message_id], and, in the
    object under [location], [module], [line], [column] and [path] under
    their own names, [obj] under [python_object] and [endLine] under
    [end_line]. *)
Theorem jsonify_record_values
    (Enum_dict : Priority → result (list (string * pyobj)))
    (data : gmap string pyval) (c : CodeSmell) :
  CodeSmell_init data = Ok c →
  ∃ top loc,
    jsonify Enum_dict c = Ok (VDict top) ∧
    top !! "location" = Some (VDict loc) ∧
    top !! "type" = data !! "type" ∧
    top !! "symbol" = data !! "symbol" ∧
    top !! "message" = data !! "message" ∧
    top !! "message_id" = data !! "message-id" ∧
    loc !! "module" = data !! "module" ∧
    loc !! "python_object" = data !! "obj" ∧
    loc !! "line" = data !! "line" ∧
    loc !! "column" = data !! "column" ∧
    loc !! "end_line" = data !! "endLine" ∧
    loc !! "path" = data !! "path".
Proof.
  intros Hc. apply CodeSmell_init_Ok in Hc
    as (prio & Hty & Ht & Hl & Hsym & Hmsg & Hmid).
  apply Location_init_Ok in Hl as (L1 & L2 & L3 & L4 & L5 & L6).
  destruct (jsonify_lookups Enum_dict c prio Ht)
    as (top & loc & sev & Hj & _ & T1 & T2 & T3 & T4 & T5 & _ & _ &
        M1 & M2 & M3 & M4 & M5 & M6).
  exists top, loc. split_and!; congruence.
Qed.

Lemma jsonify_record_values_witness :
  ∃ top loc,
    jsonify (λ _, Raise ValueError) sample_smell = Ok (VDict top) ∧
    top !! "location" = Some (VDict loc) ∧
    top !! "type" = sample_record !! "type" ∧
    top !! "symbol" = sample_record !! "symbol" ∧
    top !! "message" = sample_record !! "message" ∧
    top !! "message_id" = sample_record !! "message-id" ∧
    loc !! "module" = sample_record !! "module" ∧
    loc !! "python_object" = sample_record !! "obj" ∧
    loc !! "line" = sample_record !! "line" ∧
    loc !! "column" = sample_record !! "column" ∧
    loc !! "end_line" = sample_record !! "endLine" ∧
    loc !! "path" = sample_record !! "path".
Proof.
  apply (jsonify_record_values _ sample_record sample_smell).
  vm_compute. reflexivity.
Defined.

(** X7.  The document tells the smell: two smells that came out of the
    constructor and have the same document are the same smell. *)
Theorem jsonify_injective
    (Enum_dict : Priority → result (list (string * pyobj)))
    (data1 data2 : gmap string pyval) (c1 c2 : CodeSmell) :
  CodeSmell_init data1 = Ok c1 → CodeSmell_init data2 = Ok c2 →
  jsonify Enum_dict c1 = jsonify Enum_dict c2 → c1 = c2.
Proof.
  intros H1 H2 Hj.
  apply CodeSmell_init_Ok in H1 as (p1 & _ & Ht1 & _).
  apply CodeSmell_init_Ok in H2 as (p2 & _ & Ht2 & _).
  destruct (jsonify_lookups Enum_dict c1 p1 Ht1)
    as (top1 & loc1 & sev1 & Hj1 & _ & A1 & A2 & A3 & A4 & A5 & _ & _ &
        B1 & B2 & B3 & B4 & B5 & B6).
  destruct (jsonify_lookups Enum_dict c2 p2 Ht2)
    as (top2 & loc2 & sev2 & Hj2 & _ & C1 & C2 & C3 & C4 & C5 & _ & _ &
        D1 & D2 & D3 & D4 & D5 & D6).
  rewrite Hj1, Hj2 in Hj. injection Hj as ->.
  assert (loc1 = loc2) as -> by congruence.
  assert (p1 = p2) as -> by (apply lower_name_inj; congruence).
  destruct c1 as [t1 [m1 o1 l1 k1 e1 f1] s1 g1 i1].
  destruct c2 as [t2 [m2 o2 l2 k2 e2 f2] s2 g2 i2].
  simpl in *. congruence.
Qed.

Lemma jsonify_injective_witness :
  sample_smell = sample_smell.
Proof.
  apply (jsonify_injective (λ _, Raise ValueError)
           sample_record sample_record sample_smell sample_smell);
    vm_compute; reflexivity.
Defined.

(** X8.  The document is no record: handed back to the constructor it is
    turned down with [KeyError('module')], for its [type] is a valid name
    and [module] sits one level down, under [location]. *)
Theorem jsonify_not_a_record
    (Enum_dict : Priority → result (list (string * pyobj)))
    (data : gmap string pyval) (c : CodeSmell) :
  CodeSmell_init data = Ok c →
  ∃ top, jsonify Enum_dict c = Ok (VDict top) ∧
    CodeSmell_init top = Raise (KeyError (VStr "module")).
Proof.
  intros Hc. apply CodeSmell_init_Ok in Hc as (prio & _ & Ht & _).
  destruct (jsonify_lookups Enum_dict c prio Ht)
    as (top & loc & sev & Hj & _ & T1 & _ & _ & _ & _ & _ & T7 & _).
  exists top. split; [done|].
  unfold CodeSmell_init, Location_init, getitem. rewrite T1. simpl.
  rewrite (proj2 (get_priority_Ok _ prio) eq_refl). simpl.
  by rewrite T7.
Qed.

Lemma jsonify_not_a_record_witness :
  ∃ top, jsonify (λ _, Raise ValueError) sample_smell = Ok (VDict top) ∧
    CodeSmell_init top = Raise (KeyError (VStr "module")).
Proof.
  apply (jsonify_not_a_record _ sample_record sample_smell).
  vm_compute. reflexivity.
Defined.

(** X9.  On a smell whose [type] is no member of [Priority], [severity]
    answers -1 but [jsonify] raises [AttributeError]: the hook asks the
    type for its name before anything is written. *)
Theorem jsonify_needs_member
    (Enum_dict : Priority → result (list (string * pyobj)))
    (c : CodeSmell) (v : pyval) :
  type c = NonMember v →
  severity c = Ok (-1) ∧ jsonify Enum_dict c = Raise AttributeError.
Proof.
  intros Ht. split; [by apply (severity_NonMember c v)|].
  by apply (jsonify_NonMember Enum_dict c v).
Qed.

Lemma jsonify_needs_member_witness :
  severity {| type := NonMember VNone; location := location sample_smell;
              symbol := VNone; message := VNone; message_id := VNone |}
    = Ok (-1) ∧
  jsonify (λ _, Raise ValueError)
    {| type := NonMember VNone; location := location sample_smell;
       symbol := VNone; message := VNone; message_id := VNone |}
    = Raise AttributeError.
Proof. apply (jsonify_needs_member _ _ VNone). reflexivity. Defined.

(** X10.  The encoder is never handed the enum member itself: the entry
    [type] is replaced by the name before the dict is encoded, so the
    document does not depend on what the attribute dict of a member is. *)
Theorem jsonify_never_encodes_member
    (Enum_dict1 Enum_dict2 : Priority → result (list (string * pyobj)))
    (c : CodeSmell) :
  jsonify Enum_dict1 c = jsonify Enum_dict2 c.
Proof.
  destruct (type c) as [prio|v] eqn:Ht.
  - destruct (severity_total c) as (sev & Hsev & _).
    by rewrite (jsonify_Member Enum_dict1 c prio sev),
               (jsonify_Member Enum_dict2 c prio sev).
  - by rewrite (jsonify_NonMember Enum_dict1 c v),
               (jsonify_NonMember Enum_dict2 c v).
Qed.

(** ** More on sorting *)

Section sorted_unique.
Context {A : Type}.
Variable key : A → result Z.

Lemma filter_key_head (x : A) (l : list A) k :
  key x = Ok k →
  filter (λ y, key y = Ok k) (x :: l) = x :: filter (λ y, key y = Ok k) l.
Proof. intros Hk. rewrite filter_cons. by case_decide. Qed.

Lemma filter_key_skip (x : A) (l : list A) k k' :
  key x = Ok k → k ≠ k' →
  filter (λ y, key y = Ok k') (x :: l) = filter (λ y, key y = Ok k') l.
Proof. intros Hk Hne. rewrite filter_cons. case_decide; congruence. Qed.

(** A list in non-increasing order of key is known from its sub-lists of
    one key each. *)
Lemma stable_sorted_unique (l1 : list A) : ∀ l2,
  Forall (λ x, is_Ok (key x)) l1 → Forall (λ x, is_Ok (key x)) l2 →
  StronglySorted (key_desc key) l1 → StronglySorted (key_desc key) l2 →
  (∀ k, filter (λ x, key x = Ok k) l1 = filter (λ x, key x = Ok k) l2) →
  l1 = l2.
Proof.
  induction l1 as [|x l1 IH]; intros l2 Hk1 Hk2 Hs1 Hs2 Hf.
  - destruct l2 as [|y l2]; [done|].
    apply Forall_cons in Hk2 as [[ky Hy] _].
    specialize (Hf ky). by rewrite (filter_key_head y l2 ky Hy) in Hf.
  - apply Forall_cons in Hk1 as [[kx Hx] Hk1].
    destruct l2 as [|y l2].
    { specialize (Hf kx). by rewrite (filter_key_head x l1 kx Hx) in Hf. }
    apply Forall_cons in Hk2 as [[ky Hy] Hk2].
    apply StronglySorted_inv in Hs1 as [Hs1 Hx1].
    apply StronglySorted_inv in Hs2 as [Hs2 Hy2].
    assert (kx = ky) as <-.
    { destruct (decide (kx = ky)) as [|Hne]; [done|exfalso].
      assert (y ∈ l1) as Hyl.
      { pose proof (Hf ky) as Hfy.
        rewrite (filter_key_skip x l1 kx ky Hx Hne),
          (filter_key_head y l2 ky Hy) in Hfy.
        assert (y ∈ filter (λ z, key z = Ok ky) l1) as Hin
          by (rewrite Hfy; by left).
        by apply list_elem_of_filter in Hin as [_ ?]. }
      assert (x ∈ l2) as Hxl.
      { pose proof (Hf kx) as Hfx.
        rewrite (filter_key_head x l1 kx Hx),
          (filter_key_skip y l2 ky kx Hy) in Hfx by done.
        assert (x ∈ filter (λ z, key z = Ok kx) l2) as Hin
          by (rewrite <-Hfx; by left).
        by apply list_elem_of_filter in Hin as [_ ?]. }
      rewrite Forall_forall in Hx1, Hy2.
      destruct (Hx1 y Hyl) as (a & b & Ha & Hb & Hle).
      destruct (Hy2 x Hxl) as (a' & b' & Ha' & Hb' & Hle').
      rewrite Hx in Ha, Hb'. rewrite Hy in Hb, Ha'. simplify_eq. lia. }
    pose proof (Hf kx) as Hfx.
    rewrite (filter_key_head x l1 kx Hx), (filter_key_head y l2 kx Hy) in Hfx.
    injection Hfx as <- Hfx. f_equal.
    apply IH; try done. intros k.
    destruct (decide (kx = k)) as [<-|Hne]; [done|].
    specialize (Hf k).
    by rewrite (filter_key_skip x l1 kx k Hx Hne),
      (filter_key_skip x l2 kx k Hx Hne) in Hf.
Qed.
End sorted_unique.

Lemma Forall2_init_unique json_content smells1 smells2 :
  Forall2 (λ smell c, CodeSmell_init smell = Ok c) json_content smells1 →
  Forall2 (λ smell c, CodeSmell_init smell = Ok c) json_content smells2 →
  smells1 = smells2.
Proof.
  intros H1. revert smells2.
  induction H1 as [|x c l cs Hc _ IH]; intros smells2; inversion 1; subst;
    [done|].
  f_equal; [congruence|by apply IH].
Qed.

Lemma severity_is_Ok (l : list CodeSmell) : Forall (λ c, is_Ok (severity c)) l.
Proof.
  apply Forall_forall. intros c _.
  destruct (severity_total c) as (z & Hz & _). by exists z.
Qed.

(** What [convert_dict] returns, when it returns. *)
Lemma convert_dict_Ok json_content l :
  convert_dict json_content = Ok l →
  ∃ smells,
    Forall2 (λ smell c, CodeSmell_init smell = Ok c) json_content smells ∧
    l ≡ₚ smells ∧
    StronglySorted (key_desc severity) l ∧
    ∀ k, filter (λ c, severity c = Ok k) l =
         filter (λ c, severity c = Ok k) smells.
Proof.
  unfold convert_dict. rewrite convert_loop_mapM. intros H.
  apply bind_Ok in H as (ret & Hret & Hsorted).
  apply bind_Ok in Hret as (smells & Hsmells & [= <-]). simpl in Hsorted.
  destruct (sorted_reverse_spec severity smells (severity_is_Ok smells))
    as (l' & Hl' & Hperm & Hs & Hstable).
  rewrite Hl' in Hsorted. injection Hsorted as <-.
  exists smells. split; [by apply mapM_Ok|]. by split_and!.
Qed.

Lemma Report_init_Ok {G} json_content (g : G) r :
  Report_init json_content g = Ok r ↔
  convert_dict json_content = Ok (code_smells r) ∧ grade r = g.
Proof.
  unfold Report_init. split.
  - intros H. apply bind_Ok in H as (l & Hl & [= <-]). by split.
  - intros [-> <-]. simpl. by destruct r.
Qed.

Lemma init_Member json_content smells :
  Forall2 (λ smell c, CodeSmell_init smell = Ok c) json_content smells →
  Forall (λ c, ∃ prio, type c = Member prio) smells.
Proof.
  induction 1 as [|x c l cs Hc _ IH]; constructor; [|done].
  apply CodeSmell_init_Ok in Hc as (prio & _ & Ht & _). by exists prio.
Qed.

(** X11.  A report is built exactly when every record converts; it then
    has one smell per record and the grade it was given.  In particular no
    records give a report with no smells. *)
Theorem Report_init_succeeds_iff {G} (json_content : list (gmap string pyval))
    (g : G) :
  (is_Ok (Report_init json_content g) ↔
   Forall (λ smell, is_Ok (CodeSmell_init smell)) json_content) ∧
  (∀ r, Report_init json_content g = Ok r →
     length (code_smells r) = length json_content ∧ grade r = g).
Proof.
  split; [split|].
  - intros [r Hr]. apply Report_init_Ok in Hr as [Hr _].
    apply convert_dict_Ok in Hr as (smells & Hsm & _).
    clear -Hsm. induction Hsm; constructor; [by eexists|done].
  - intros Hall.
    destruct (mapM_total CodeSmell_init json_content Hall)
      as [smells Hsmells].
    destruct (sorted_reverse_spec severity smells (severity_is_Ok smells))
      as (l' & Hl' & _).
    exists {| code_smells := l'; grade := g |}.
    unfold Report_init, convert_dict.
    rewrite convert_loop_mapM, Hsmells. simpl. by rewrite Hl'.
  - intros r Hr. apply Report_init_Ok in Hr as [Hr Hg]. split; [|done].
    apply convert_dict_Ok in Hr as (smells & Hsm & Hperm & _).
    rewrite Hperm. symmetry. by eapply Forall2_length.
Qed.

Lemma Report_init_succeeds_iff_witness :
  is_Ok (Report_init sample_records 8) ∧
  ¬ is_Ok (Report_init records_missing_path 8).
Proof.
  split.
  - apply (Report_init_succeeds_iff sample_records 8).
    unfold sample_records.
    repeat (apply Forall_cons; split; [vm_compute; by eexists|]).
    constructor.
  - intros H. apply (Report_init_succeeds_iff records_missing_path 8) in H.
    unfold records_missing_path in H.
    apply Forall_cons in H as [_ H]. apply Forall_cons in H as [[c Hc] _].
    vm_compute in Hc. discriminate Hc.
Defined.

(** X12.  The smells of a report are the only arrangement of the converted
    records that is in non-increasing order of severity and keeps, for each
    severity, the order of the records: any list with these two properties
    is the list [convert_dict] returns. *)
Theorem Report_init_unique {G} (json_content : list (gmap string pyval))
    (g : G) (r : Report G) (smells l : list CodeSmell) :
  Report_init json_content g = Ok r →
  Forall2 (λ smell c, CodeSmell_init smell = Ok c) json_content smells →
  StronglySorted (key_desc severity) l →
  (∀ k, filter (λ c, severity c = Ok k) l =
        filter (λ c, severity c = Ok k) smells) →
  l = code_smells r.
Proof.
  intros Hr Hsm Hs Hf. apply Report_init_Ok in Hr as [Hr _].
  apply convert_dict_Ok in Hr as (smells' & Hsm' & _ & Hs' & Hf').
  rewrite (Forall2_init_unique _ _ _ Hsm' Hsm) in Hf'.
  apply (stable_sorted_unique severity); try done;
    try apply severity_is_Ok.
  intros k. by rewrite Hf, Hf'.
Qed.

(** X13.  Records that come in non-increasing order of severity are left
    in the order they came in. *)
Theorem Report_init_keeps_sorted_input {G}
    (json_content : list (gmap string pyval)) (g : G) (r : Report G)
    (smells : list CodeSmell) :
  Report_init json_content g = Ok r →
  Forall2 (λ smell c, CodeSmell_init smell = Ok c) json_content smells →
  StronglySorted (key_desc severity) smells →
  code_smells r = smells.
Proof.
  intros Hr Hsm Hs. apply Report_init_Ok in Hr as [Hr _].
  apply convert_dict_Ok in Hr as (smells' & Hsm' & _ & Hs' & Hf').
  rewrite (Forall2_init_unique _ _ _ Hsm' Hsm) in Hf'.
  apply (stable_sorted_unique severity); try done; apply severity_is_Ok.
Qed.

Lemma two_smells_sorted :
  StronglySorted (key_desc severity) [error_smell; convention_smell].
Proof.
  repeat constructor. exists 3, 0. split; [reflexivity|].
  split; [reflexivity|lia].
Defined.

Lemma two_smells_filter k :
  filter (λ c, severity c = Ok k) [error_smell; convention_smell] =
  filter (λ c, severity c = Ok k) [convention_smell; error_smell].
Proof.
  rewrite !filter_cons, !filter_nil.
  change (severity error_smell) with (Ok (A:=Z) 3).
  change (severity convention_smell) with (Ok (A:=Z) 0).
  destruct (decide (Ok 3 = Ok k)) as [H3|H3];
    destruct (decide (Ok 0 = Ok k)) as [H0|H0]; try reflexivity.
  exfalso. injection H3 as <-. discriminate H0.
Defined.

Lemma Report_init_unique_witness :
  [error_smell; convention_smell] = code_smells two_report.
Proof.
  apply (Report_init_unique two_records 8 two_report
           [convention_smell; error_smell]).
  - vm_compute. reflexivity.
  - repeat constructor.
  - apply two_smells_sorted.
  - apply two_smells_filter.
Defined.

Lemma Report_init_keeps_sorted_input_witness :
  code_smells two_report = [error_smell; convention_smell].
Proof.
  apply (Report_init_keeps_sorted_input two_records_sorted 8 two_report).
  - vm_compute. reflexivity.
  - repeat constructor.
  - apply two_smells_sorted.
Defined.

Lemma severity_rank_of c prio : type c = Member prio → severity c = Ok (rank prio).
Proof. intros Ht. rewrite (severity_Member c prio Ht). by destruct prio. Qed.

Lemma rank_inj p q : rank p = rank q → p = q.
Proof. destruct p, q; (done || discriminate). Qed.

Lemma of_class_severity prio (l : list CodeSmell) :
  Forall (λ c, ∃ q, type c = Member q) l →
  of_class prio l = filter (λ c, severity c = Ok (rank prio)) l.
Proof.
  unfold of_class. induction 1 as [|c l [q Hq] _ IH]; [done|].
  rewrite !filter_cons, IH, (severity_rank_of c q Hq), Hq.
  repeat case_decide; try done.
  - by simplify_eq.
  - simplify_eq. assert (q = prio) by by apply rank_inj. by subst.
Qed.

Lemma of_class_above c prio q (l : list CodeSmell) :
  type c = Member prio → rank prio < rank q →
  Forall (key_desc severity c) l → of_class q l = [].
Proof.
  intros Hc Hlt. unfold of_class.
  induction 1 as [|y l (a & b & Ha & Hb & Hle) _ IH]; [done|].
  rewrite filter_cons, IH. case_decide as Hy; [|done].
  rewrite (severity_rank_of c prio Hc) in Ha.
  rewrite (severity_rank_of y q Hy) in Hb. simplify_eq. lia.
Qed.

Lemma sorted_by_class (l : list CodeSmell) :
  Forall (λ c, ∃ q, type c = Member q) l →
  StronglySorted (key_desc severity) l →
  l = of_class ERROR l ++ of_class WARNING l ++ of_class REFACTOR l
        ++ of_class CONVENTION l.
Proof.
  induction 1 as [|c l [q Hq] _ IH]; [done|].
  intros [Hs Hc]%StronglySorted_inv. specialize (IH Hs).
  pose proof (λ q' Hlt, of_class_above c q q' l Hq Hlt Hc) as Habove.
  unfold of_class in *. rewrite !filter_cons, Hq.
  destruct q; repeat case_decide; try done; simpl.
  - by rewrite <-IH.
  - rewrite (Habove ERROR) in * by (simpl; lia). simpl in *. by f_equal.
  - rewrite (Habove ERROR), (Habove WARNING) in * by (simpl; lia).
    simpl in *. by f_equal.
  - rewrite (Habove ERROR), (Habove WARNING), (Habove REFACTOR) in *
      by (simpl; lia).
    simpl in *. by f_equal.
Qed.

(** X14.  The smells of a report are the errors among the converted
    records, in the order of the records, then the warnings, then the
    refactors, then the conventions. *)
Theorem Report_init_by_class {G} (json_content : list (gmap string pyval))
    (g : G) (r : Report G) (smells : list CodeSmell) :
  Report_init json_content g = Ok r →
  Forall2 (λ smell c, CodeSmell_init smell = Ok c) json_content smells →
  code_smells r =
    of_class ERROR smells ++ of_class WARNING smells
      ++ of_class REFACTOR smells ++ of_class CONVENTION smells.
Proof.
  intros Hr Hsm. apply Report_init_Ok in Hr as [Hr _].
  apply convert_dict_Ok in Hr as (smells' & Hsm' & Hperm & Hs & Hf).
  rewrite (Forall2_init_unique _ _ _ Hsm' Hsm) in Hperm, Hf.
  pose proof (init_Member _ _ Hsm) as Hmem.
  assert (Forall (λ c, ∃ q, type c = Member q) (code_smells r)) as Hmem'
    by by rewrite Hperm.
  rewrite (sorted_by_class (code_smells r) Hmem' Hs) at 1.
  by rewrite !(of_class_severity _ (code_smells r)),
    !(of_class_severity _ smells), !Hf.
Qed.

Lemma Report_init_by_class_witness :
  code_smells two_report =
    of_class ERROR [convention_smell; error_smell]
      ++ of_class WARNING [convention_smell; error_smell]
      ++ of_class REFACTOR [convention_smell; error_smell]
      ++ of_class CONVENTION [convention_smell; error_smell].
Proof.
  apply (Report_init_by_class two_records 8 two_report).
  - vm_compute. reflexivity.
  - repeat constructor.
Defined.

(** ** More on grouping *)

Lemma StronglySorted_concat {B} (R : relation B) (gs : list (list B)) :
  StronglySorted R (concat gs) → Forall (StronglySorted R) gs.
Proof.
  induction gs as [|g gs IH]; simpl; [constructor|].
  intros (_ & Hg & Hgs)%StronglySorted_app. constructor; [done|by apply IH].
Qed.

Section groupby_more.
Context {A : Type}.
Variable key : A → pyval.

Lemma grouper_same (l : list A) : ∀ tgt grp,
  Forall (λ y, py_eq (key y) tgt = true) l →
  grouper key tgt grp l = [(tgt, grp ++ l)].
Proof.
  induction l as [|y l IH]; intros tgt grp Hall; simpl.
  - by rewrite app_nil_r.
  - apply Forall_cons in Hall as [-> Hall].
    rewrite IH by done. by rewrite <-app_assoc.
Qed.

Lemma grouper_length (l : list A) : ∀ tgt grp,
  (length (grouper key tgt grp l) ≤ S (length l))%nat.
Proof.
  induction l as [|y l IH]; intros tgt grp; simpl; [lia|].
  destruct (py_eq (key y) tgt); simpl.
  - specialize (IH tgt (grp ++ [y])). lia.
  - specialize (IH (key y) [y]). lia.
Qed.

Lemma groupby_length (l : list A) : (length (groupby key l) ≤ length l)%nat.
Proof.
  destruct l as [|x l]; simpl; [lia|]. apply grouper_length.
Qed.

Lemma groupby_nil (l : list A) : groupby key l = [] ↔ l = [].
Proof.
  split; [|by intros ->]. destruct l as [|x l]; [done|]. simpl.
  destruct (grouper_head key l (key x) [x]) as (g & rest & ->). done.
Qed.

Lemma groupby_one (x : A) (l : list A) :
  (groupby key (x :: l)).*2 = [x :: l] ↔
  Forall (λ y, py_eq (key y) (key x) = true) l.
Proof.
  split.
  - intros Hone.
    pose proof (groupby_runs key (x :: l)) as Hruns. simpl in *.
    destruct (grouper_head key l (key x) [x]) as (g & rest & Hg).
    rewrite Hg in Hone, Hruns. simpl in Hone. injection Hone as -> Hrest.
    apply Forall_cons in Hruns as [[_ Hrun] _]. simpl in Hrun.
    by apply Forall_cons in Hrun as [_ ?].
  - intros Hall. simpl. by rewrite grouper_same.
Qed.

Lemma groupby_regroup (l : list A) kg :
  kg ∈ groupby key l → (groupby key kg.2).*2 = [kg.2].
Proof.
  intros Hin. pose proof (groupby_runs key l) as Hruns.
  rewrite Forall_forall in Hruns. destruct (Hruns kg Hin) as [Hne Hall].
  destruct kg as [k [|x g]]; [done|]. simpl in *.
  apply groupby_one. apply Forall_cons in Hall as [Hx Hall].
  eapply Forall_impl; [exact Hall|]. simpl. intros y Hy.
  apply py_eq_trans with k; [done|]. by rewrite py_eq_sym.
Qed.
End groupby_more.

(** X15.  In a report that came out of the constructor, each group of
    [group_by_file] is itself in non-increasing order of severity. *)
Theorem group_by_file_groups_sorted {G}
    (json_content : list (gmap string pyval)) (g : G) (r : Report G) :
  Report_init json_content g = Ok r →
  Forall (StronglySorted (key_desc severity)) (group_by_file r).
Proof.
  intros Hr. apply Report_init_Ok in Hr as [Hr _].
  apply convert_dict_Ok in Hr as (smells & _ & _ & Hs & _).
  apply StronglySorted_concat. unfold group_by_file.
  by rewrite groupby_concat.
Qed.

Lemma group_by_file_groups_sorted_witness :
  Forall (StronglySorted (key_desc severity)) (group_by_file two_report).
Proof.
  apply (group_by_file_groups_sorted two_records 8 two_report).
  vm_compute. reflexivity.
Defined.

(** X16.  Grouping is settled after one pass: a report made of one group
    of [group_by_file] is grouped into that one group. *)
Theorem group_by_file_regroup {G} (r : Report G) (grp : list CodeSmell) :
  grp ∈ group_by_file r →
  group_by_file {| code_smells := grp; grade := grade r |} = [grp].
Proof.
  unfold group_by_file. intros Hin. simpl.
  apply list_elem_of_fmap in Hin as (kg & -> & Hkg).
  by apply (groupby_regroup key_func (code_smells r)).
Qed.

Lemma group_by_file_regroup_witness :
  group_by_file {| code_smells := [smell_in "a.py" "x"; smell_in "a.py" "y"];
                   grade := grade report_AAB |}
  = [[smell_in "a.py" "x"; smell_in "a.py" "y"]].
Proof.
  apply (group_by_file_regroup report_AAB).
  vm_compute. apply list_elem_of_here.
Defined.

(** X17.  There are at most as many groups as smells, and no group at all
    exactly when the report has no smell. *)
Theorem group_by_file_count {G} (r : Report G) :
  (length (group_by_file r) ≤ length (code_smells r))%nat ∧
  (group_by_file r = [] ↔ code_smells r = []).
Proof.
  unfold group_by_file. split.
  - rewrite length_fmap. apply groupby_length.
  - rewrite <-(groupby_nil key_func (code_smells r)).
    destruct (groupby key_func (code_smells r)); simpl; split; congruence.
Qed.

(** X18.  A report with a first smell has a single group, all its smells,
    exactly when every smell has the path of the first. *)
Theorem group_by_file_single {G} (r : Report G) (x : CodeSmell)
    (l : list CodeSmell) :
  code_smells r = x :: l →
  (group_by_file r = [x :: l] ↔
   Forall (λ y, py_eq (path (location y)) (path (location x)) = true) l).
Proof.
  unfold group_by_file. intros ->. apply (groupby_one key_func).
Qed.

Lemma group_by_file_single_witness :
  group_by_file {| code_smells := [smell_in "a.py" "x"; smell_in "a.py" "y"];
                   grade := 8 |}
  = [[smell_in "a.py" "x"; smell_in "a.py" "y"]].
Proof.
  apply (group_by_file_single _ (smell_in "a.py" "x") [smell_in "a.py" "y"]).
  - reflexivity.
  - repeat constructor.
Defined.

(** ** More on the readable symbol *)

(** X19.  The readable symbol has no hyphen left, and making it readable
    once more changes nothing. *)
Theorem get_readable_symbol_idempotent (c : CodeSmell) (s : string)
    (r : pyval) :
  symbol c = VStr s → get_readable_symbol c = Ok r →
  (∃ t, r = VStr t ∧ ∀ i, String.get i t ≠ Some "-"%char) ∧
  ∀ c', symbol c' = r → get_readable_symbol c' = Ok r.
Proof.
  unfold get_readable_symbol. intros -> [= <-].
  assert (∀ i, String.get i (replace s "-" " ") ≠ Some "-"%char) as Hfree.
  { intros i. rewrite replace_hyphen_get.
    destruct (String.get i s) as [ch|]; [|done].
    case_decide; [done|congruence]. }
  split; [by eexists|].
  intros c' ->. by rewrite replace_hyphen_free.
Qed.

Lemma get_readable_symbol_idempotent_witness :
  (∃ t, VStr "unused variable" = VStr t ∧
        ∀ i, String.get i t ≠ Some "-"%char) ∧
  ∀ c', symbol c' = VStr "unused variable" →
        get_readable_symbol c' = Ok (VStr "unused variable").
Proof.
  apply (get_readable_symbol_idempotent sample_smell "unused-variable");
    reflexivity.
Defined.

(** X20.  The constructor takes any value under [symbol]; when that value
    is not a string, [get_readable_symbol] raises [AttributeError]. *)
Theorem get_readable_symbol_needs_string (data : gmap string pyval)
    (c : CodeSmell) :
  CodeSmell_init data = Ok c →
  (∀ s, data !! "symbol" ≠ Some (VStr s)) →
  get_readable_symbol c = Raise AttributeError.
Proof.
  intros Hc Hs. apply CodeSmell_init_Ok in Hc as (_ & _ & _ & _ & Hsym & _).
  unfold get_readable_symbol. rewrite Hsym in Hs.
  destruct (symbol c) as [| | |s| |]; try done. by destruct (Hs s).
Qed.

Lemma get_readable_symbol_needs_string_witness :
  get_readable_symbol (smell_of (<["symbol" := VInt 5]> sample_record))
  = Raise AttributeError.
Proof.
  apply (get_readable_symbol_needs_string
           (<["symbol" := VInt 5]> sample_record)).
  - vm_compute. reflexivity.
  - intros s H. vm_compute in H. discriminate H.
Defined.

(** ** The textual forms *)

(** X21.  The debug form and the display form of a smell are the same
    text, and both raise [AttributeError] on a smell whose [type] is no
    member.  The text tells the class of the smell: two smells with the
    same text have the same [type]. *)
Theorem CodeSmell_text (str_of : pyval → string) (c : CodeSmell) :
  CodeSmell_repr str_of c = CodeSmell_str str_of c ∧
  (∀ v, type c = NonMember v → CodeSmell_str str_of c = Raise AttributeError) ∧
  (∀ c' t, CodeSmell_str str_of c = Ok t → CodeSmell_str str_of c' = Ok t →
           type c = type c').
Proof.
  unfold CodeSmell_repr, CodeSmell_str, type_name_lower. split; [done|].
  split; [by intros v ->|].
  intros c' t.
  destruct (type c) as [p|], (type c') as [p'|]; simpl; try done.
  intros [= <-]. destruct p, p'; simpl; intros [=]; done.
Qed.

Lemma CodeSmell_text_witness :
  type sample_smell = type (smell_in "app.py" "other").
Proof.
  apply (proj2 (proj2 (CodeSmell_text (λ _, "?") sample_smell))
           (smell_in "app.py" "other")
           "warning in ? on line ? at ? with reason: ?");
    reflexivity.
Defined.

(** ** More on construction *)

(** X22.  [Location.__init__] succeeds exactly when its six keys are
    there, and then holds the six values as it found them, whatever they
    are: [module], [line], [column] and [path] under their own names, the
    value of [obj] as [python_object] and that of [endLine] as
    [end_line]. *)
Theorem Location_init_fields (data : gmap string pyval) :
  (is_Ok (Location_init data) ↔
   Forall (λ k, is_Some (data !! k)) location_keys) ∧
  (∀ l, Location_init data = Ok l →
     data !! "module" = Some (module l) ∧
     data !! "obj" = Some (python_object l) ∧
     data !! "line" = Some (line l) ∧
     data !! "column" = Some (column l) ∧
     data !! "endLine" = Some (end_line l) ∧
     data !! "path" = Some (path l)).
Proof.
  split; [split|].
  - intros [l Hl].
    apply Location_init_Ok in Hl as (L1 & L2 & L3 & L4 & L5 & L6).
    unfold location_keys. repeat constructor; by eexists.
  - unfold location_keys. intros Hk.
    repeat match goal with
    | H : Forall _ (_ :: _) |- _ => apply Forall_cons in H as [[? ?] H]
    end.
    eexists {| module := _ |}. apply Location_init_Ok. simpl.
    by split_and!.
  - intros l. apply Location_init_Ok.
Qed.

Lemma Location_init_fields_witness :
  is_Ok (Location_init sample_record).
Proof.
  apply (Location_init_fields sample_record). unfold location_keys.
  repeat (apply Forall_cons; split; [vm_compute; by eexists|]).
  constructor.
Defined.

(** X23.  The severity of a smell that came out of the constructor is read
    off the [type] of its record: 3 exactly for [error], 2 for [warning],
    1 for [refactor], 0 for [convention]. *)
Theorem severity_of_record (data : gmap string pyval) (c : CodeSmell) :
  CodeSmell_init data = Ok c →
  (severity c = Ok 3 ↔ data !! "type" = Some (VStr "error")) ∧
  (severity c = Ok 2 ↔ data !! "type" = Some (VStr "warning")) ∧
  (severity c = Ok 1 ↔ data !! "type" = Some (VStr "refactor")) ∧
  (severity c = Ok 0 ↔ data !! "type" = Some (VStr "convention")).
Proof.
  intros Hc. apply CodeSmell_init_Ok in Hc as (prio & Hty & Ht & _).
  rewrite (severity_Member c prio Ht), Hty.
  destruct prio; vm_compute (lower _); split_and!; split; intros [=]; done.
Qed.

Lemma severity_of_record_witness :
  severity sample_smell = Ok 2.
Proof.
  apply (severity_of_record sample_record sample_smell).
  - vm_compute. reflexivity.
  - reflexivity.
Defined.
